(** * FarmingSimFHE: batch lifecycle and decryption-oracle protocol

    A shallow embedding of [contracts/Farming_Sim_FHE.sol].  Storage is a
    record of Solidity mappings (total functions with zero defaults),
    every external function is a computation in a state-and-revert monad
    that threads the storage statement by statement, and the fhEVM
    library the contract imports is an explicit environment record. *)

From Stdlib Require Import ZArith String List Bool Lia Permutation.
From Stdlib.Strings Require Import Byte.
Import ListNotations.
Open Scope Z_scope.

(** ** Solidity value types *)

Definition address := Z.
Definition uint256 := Z.
Definition bytes32 := Z.
Definition bytes := list byte.

(** [type euint32 is bytes32]: an encrypted value is held as a handle. *)
Definition euint32 := bytes32.

Definition MAX_UINT256 : Z := 2 ^ 256 - 1.
Definition MAX_UINT32 : Z := 2 ^ 32 - 1.

Arguments MAX_UINT256 : simpl never.
Arguments MAX_UINT32 : simpl never.

(** ** Errors and events *)

Inductive Error :=
| NotOwner
| NotProvider
| Paused
| InvalidState
| TooFrequent
| BatchClosed
| BatchFull
| InvalidBatch
| StaleWrite
| NotTrustedRelayer
| RequireFailed (reason : string)
| Panic (code : Z)
| AbiDecodeFailed
| InvalidSignatures.

Module Event.

Inductive t :=
| OwnershipTransferred (previousOwner newOwner : address)
| ProviderAdded (provider : address)
| ProviderRemoved (provider : address)
| Paused (account : address)
| Unpaused (account : address)
| CooldownUpdated (oldInterval newInterval : uint256)
| BatchSizeLimitUpdated (oldLimit newLimit : uint256)
| BatchOpened (batchId modelVersion : uint256)
| BatchClosed (batchId : uint256)
| CropSubmitted (provider : address) (batchId modelVersion : uint256)
| DecryptionRequested (requestId batchId : uint256) (requester : address)
| DecryptionCompleted (requestId batchId : uint256) (totalScore : Z)
| ModelVersionUpdated (oldVersion newVersion : uint256).

End Event.

(** ** Structs *)

Module Batch.

Record t := mk {
  exists_ : bool;
  closed : bool;
  createdAt : uint256;
  closedAt : uint256;
  modelVersion : uint256
}.

Definition zero : t := mk false false 0 0 0.

Definition set_closed (v : bool) (b : t) : t :=
  mk (exists_ b) v (createdAt b) (closedAt b) (modelVersion b).

Definition set_closedAt (v : uint256) (b : t) : t :=
  mk (exists_ b) (closed b) (createdAt b) v (modelVersion b).

End Batch.

Module DecryptionContext.

Record t := mk {
  batchId : uint256;
  modelVersion : uint256;
  stateHash : bytes32;
  processed : bool;
  requester : address
}.

Definition zero : t := mk 0 0 0 false 0.

Definition set_processed (v : bool) (c : t) : t :=
  mk (batchId c) (modelVersion c) (stateHash c) v (requester c).

End DecryptionContext.

(** ** Storage *)

Record State := mkState {
  owner : address;
  paused : bool;
  cooldownInterval : uint256;
  batchSizeLimit : uint256;
  currentModelVersion : uint256;
  providers : address -> bool;
  lastActionAt : address -> uint256;
  batches : uint256 -> Batch.t;
  decryptionContexts : uint256 -> DecryptionContext.t;
  batchAccumulators : uint256 -> uint256 -> euint32;
  batchSizes : uint256 -> uint256 -> uint256;
  batchVersions : uint256 -> uint256 -> uint256;
  events : list Event.t
}.

Definition MIN_INTERVAL : uint256 := 5.

(** A mapping write [m[k] = v], and the nested [m[k1][k2] = v]. *)
Definition upd {A} (m : Z -> A) (k : Z) (v : A) : Z -> A :=
  fun k' => if k' =? k then v else m k'.

Definition upd2 {A} (m : Z -> Z -> A) (k1 k2 : Z) (v : A) : Z -> Z -> A :=
  upd m k1 (upd (m k1) k2 v).

Definition set_owner (v : address) (s : State) : State :=
  let 'mkState _ p c l m pr la b d ba bs bv ev := s in
  mkState v p c l m pr la b d ba bs bv ev.

Definition set_paused (v : bool) (s : State) : State :=
  let 'mkState o _ c l m pr la b d ba bs bv ev := s in
  mkState o v c l m pr la b d ba bs bv ev.

Definition set_cooldownInterval (v : uint256) (s : State) : State :=
  let 'mkState o p _ l m pr la b d ba bs bv ev := s in
  mkState o p v l m pr la b d ba bs bv ev.

Definition set_batchSizeLimit (v : uint256) (s : State) : State :=
  let 'mkState o p c _ m pr la b d ba bs bv ev := s in
  mkState o p c v m pr la b d ba bs bv ev.

Definition set_currentModelVersion (v : uint256) (s : State) : State :=
  let 'mkState o p c l _ pr la b d ba bs bv ev := s in
  mkState o p c l v pr la b d ba bs bv ev.

Definition set_providers (a : address) (v : bool) (s : State) : State :=
  let 'mkState o p c l m pr la b d ba bs bv ev := s in
  mkState o p c l m (upd pr a v) la b d ba bs bv ev.

Definition set_lastActionAt (a : address) (v : uint256) (s : State) : State :=
  let 'mkState o p c l m pr la b d ba bs bv ev := s in
  mkState o p c l m pr (upd la a v) b d ba bs bv ev.

Definition set_batches (k : uint256) (v : Batch.t) (s : State) : State :=
  let 'mkState o p c l m pr la b d ba bs bv ev := s in
  mkState o p c l m pr la (upd b k v) d ba bs bv ev.

Definition set_decryptionContexts (k : uint256) (v : DecryptionContext.t)
  (s : State) : State :=
  let 'mkState o p c l m pr la b d ba bs bv ev := s in
  mkState o p c l m pr la b (upd d k v) ba bs bv ev.

Definition set_batchAccumulators (k1 k2 : uint256) (v : euint32) (s : State)
  : State :=
  let 'mkState o p c l m pr la b d ba bs bv ev := s in
  mkState o p c l m pr la b d (upd2 ba k1 k2 v) bs bv ev.

Definition set_batchSizes (k1 k2 : uint256) (v : uint256) (s : State) : State :=
  let 'mkState o p c l m pr la b d ba bs bv ev := s in
  mkState o p c l m pr la b d ba (upd2 bs k1 k2 v) bv ev.

Definition set_batchVersions (k1 k2 : uint256) (v : uint256) (s : State)
  : State :=
  let 'mkState o p c l m pr la b d ba bs bv ev := s in
  mkState o p c l m pr la b d ba bs (upd2 bv k1 k2 v) ev.

Definition log (e : Event.t) (s : State) : State :=
  let 'mkState o p c l m pr la b d ba bs bv ev := s in
  mkState o p c l m pr la b d ba bs bv (ev ++ [e]).

(** ** Transaction context and the imported fhEVM library *)

(** [oracle_requestId] is the identifier that [FHE.requestDecryption]
    hands back during this transaction; it is read only by
    [requestBatchDecryption].  Calls into the library other than
    [FHE.checkSignatures] are taken to return: a revert raised inside
    the library (a missing ACL permission, say) has no counterpart
    here. *)
Record Tx := mkTx {
  msg_sender : address;
  block_timestamp : uint256;
  oracle_requestId : uint256
}.

Record Env := mkEnv {
  this : address;
  keccak256 : bytes -> bytes32;
  FHE_isInitialized : euint32 -> bool;
  FHE_asEuint32 : Z -> euint32;
  FHE_add : euint32 -> euint32 -> euint32;
  FHE_toBytes32 : euint32 -> bytes32;
  FHE_checkSignatures : uint256 -> bytes -> bytes -> bool
}.

(** ** ABI encoding *)

Definition byte_of_Z (z : Z) : byte :=
  match Byte.of_N (Z.to_N (z mod 256)) with
  | Some b => b
  | None => x00
  end.

Definition Z_of_byte (b : byte) : Z := Z.of_N (Byte.to_N b).

(** Big-endian, [n] bytes wide. *)
Fixpoint be_bytes (n : nat) (z : Z) : bytes :=
  match n with
  | O => []
  | S n' => be_bytes n' (z / 256) ++ [byte_of_Z z]
  end.

Definition be_to_Z (bs : bytes) : Z :=
  fold_left (fun acc b => acc * 256 + Z_of_byte b) bs 0.

Definition word (z : Z) : bytes := be_bytes 32 z.

(** [abi.encode(bytes32[] cts, address a)]: two head words (offset of the
    array, the address) and the array tail (length, elements). *)
Definition abi_encode_cts (cts : list bytes32) (a : address) : bytes :=
  word 64 ++ word a ++ word (Z.of_nat (length cts)) ++ flat_map word cts.

(** [abi.encodePacked(address a, uint256 x, uint256 y)]. *)
Definition abi_encodePacked_id (a : address) (x y : uint256) : bytes :=
  be_bytes 20 a ++ word x ++ word y.

(** [abi.decode(data, (uint32))]: one full word, upper bits clean. *)
Definition abi_decode_uint32 (data : bytes) : option Z :=
  if (Z.of_nat (length data) <? 32) then None
  else
    let w := be_to_Z (firstn 32 data) in
    if w <=? MAX_UINT32 then Some w else None.

(** ** The state-and-revert monad

    A computation threads the storage.  [Revert] keeps the storage as it
    stood at the failing statement, so that a write made before a failed
    check stays visible to the theorems; the roll-back that the EVM
    performs is [transact] below. *)

Inductive Outcome (A : Type) :=
| Done (a : A) (s : State)
| Revert (e : Error) (s : State).

Arguments Done {A} a s.
Arguments Revert {A} e s.

Definition M (A : Type) := State -> Outcome A.

Definition ret {A} (a : A) : M A := fun s => Done a s.

Definition bind {A B} (m : M A) (f : A -> M B) : M B :=
  fun s =>
    match m s with
    | Done a s' => f a s'
    | Revert e s' => Revert e s'
    end.

Notation "x <- c ;; k" := (bind c (fun x => k))
  (at level 61, c at next level, right associativity).
Notation "c ;; k" := (bind c (fun _ => k))
  (at level 61, right associativity).

Definition read {A} (f : State -> A) : M A := fun s => Done (f s) s.

Definition write (f : State -> State) : M unit := fun s => Done tt (f s).

Definition revert {A} (e : Error) : M A := fun s => Revert e s.

Definition require (b : bool) (reason : string) : M unit :=
  if b then ret tt else revert (RequireFailed reason).

Arguments require b reason%_string.

Definition emit (e : Event.t) : M unit := write (log e).

(** Checked [uint256] addition: overflow is [Panic(0x11)]. *)
Definition checked_add (a b : uint256) : M uint256 :=
  if a + b <=? MAX_UINT256 then ret (a + b) else revert (Panic 17).

(** ** Modifiers *)

Definition onlyOwner (tx : Tx) : M unit :=
  o <- read owner ;;
  if msg_sender tx =? o then ret tt else revert NotOwner.

Definition onlyProvider (tx : Tx) : M unit :=
  p <- read (fun s => providers s (msg_sender tx)) ;;
  if p then ret tt else revert NotProvider.

Definition whenNotPaused : M unit :=
  p <- read paused ;;
  if p then revert Paused else ret tt.

Definition checkCooldown (tx : Tx) (interval : uint256) : M unit :=
  last <- read (fun s => lastActionAt s (msg_sender tx)) ;;
  ready <- checked_add last interval ;;
  if block_timestamp tx <? ready then revert TooFrequent else ret tt.

(** ** Construction *)

Definition zero_storage : State :=
  mkState 0 false 0 0 0 (fun _ => false) (fun _ => 0) (fun _ => Batch.zero)
    (fun _ => DecryptionContext.zero) (fun _ _ => 0) (fun _ _ => 0)
    (fun _ _ => 0) [].

(** [cooldownInterval = 10 seconds] and [batchSizeLimit = 5]. *)
Definition initializers : M unit :=
  write (set_cooldownInterval 10) ;;
  write (set_batchSizeLimit 5).

Definition constructor (tx : Tx) : M unit :=
  write (set_owner (msg_sender tx)) ;;
  o <- read owner ;;
  write (set_providers o true) ;;
  write (set_currentModelVersion 1) ;;
  o' <- read owner ;;
  emit (Event.ProviderAdded o') ;;
  v <- read currentModelVersion ;;
  emit (Event.ModelVersionUpdated 0 v).

Definition deploy (tx : Tx) : Outcome unit :=
  (initializers ;; constructor tx) zero_storage.

(** ** Owner operations *)

Definition transferOwnership (tx : Tx) (newOwner : address) : M unit :=
  onlyOwner tx ;;
  oldOwner <- read owner ;;
  write (set_owner newOwner) ;;
  emit (Event.OwnershipTransferred oldOwner newOwner).

Definition addProvider (tx : Tx) (provider : address) : M unit :=
  onlyOwner tx ;;
  p <- read (fun s => providers s provider) ;;
  if negb p then
    write (set_providers provider true) ;;
    emit (Event.ProviderAdded provider)
  else ret tt.

Definition removeProvider (tx : Tx) (provider : address) : M unit :=
  onlyOwner tx ;;
  p <- read (fun s => providers s provider) ;;
  if p then
    write (set_providers provider false) ;;
    emit (Event.ProviderRemoved provider)
  else ret tt.

Definition setPaused (tx : Tx) (_paused : bool) : M unit :=
  onlyOwner tx ;;
  p <- read paused ;;
  if negb (Bool.eqb _paused p) then
    write (set_paused _paused) ;;
    if _paused then emit (Event.Paused (msg_sender tx))
    else emit (Event.Unpaused (msg_sender tx))
  else ret tt.

Definition setCooldownInterval (tx : Tx) (newInterval : uint256) : M unit :=
  onlyOwner tx ;;
  oldInterval <- read cooldownInterval ;;
  write (set_cooldownInterval newInterval) ;;
  emit (Event.CooldownUpdated oldInterval newInterval).

Definition setBatchSizeLimit (tx : Tx) (newLimit : uint256) : M unit :=
  onlyOwner tx ;;
  require (0 <? newLimit) "Invalid limit" ;;
  oldLimit <- read batchSizeLimit ;;
  write (set_batchSizeLimit newLimit) ;;
  emit (Event.BatchSizeLimitUpdated oldLimit newLimit).

Definition incrementModelVersion (tx : Tx) : M unit :=
  onlyOwner tx ;;
  oldVersion <- read currentModelVersion ;;
  next <- checked_add oldVersion 1 ;;
  write (set_currentModelVersion next) ;;
  v <- read currentModelVersion ;;
  emit (Event.ModelVersionUpdated oldVersion v).

(** ** Internal helpers *)

Definition _hashCiphertexts (E : Env) (cts : list bytes32) : bytes32 :=
  keccak256 E (abi_encode_cts cts (this E)).

Definition _initIfNeeded (E : Env) (x : euint32) : euint32 :=
  if negb (FHE_isInitialized E x) then FHE_asEuint32 E 0 else x.

Definition _requireInitialized (E : Env) (x : euint32) : M unit :=
  if negb (FHE_isInitialized E x) then revert InvalidState else ret tt.

(** ** Batch lifecycle *)

Definition openBatch (E : Env) (tx : Tx) : M unit :=
  onlyProvider tx ;;
  whenNotPaused ;;
  interval <- read cooldownInterval ;;
  checkCooldown tx interval ;;
  v <- read currentModelVersion ;;
  let batchId :=
    keccak256 E (abi_encodePacked_id (this E) v (block_timestamp tx)) in
  b <- read (fun s => batches s batchId) ;;
  require (negb (Batch.exists_ b)) "Batch exists" ;;
  write (set_batches batchId
           (Batch.mk true false (block_timestamp tx) 0 v)) ;;
  write (set_lastActionAt (msg_sender tx) (block_timestamp tx)) ;;
  v' <- read currentModelVersion ;;
  emit (Event.BatchOpened batchId v').

Definition closeBatch (tx : Tx) (batchId : uint256) : M unit :=
  onlyProvider tx ;;
  whenNotPaused ;;
  batch <- read (fun s => batches s batchId) ;;
  require (Batch.exists_ batch) "Batch not found" ;;
  require (negb (Batch.closed batch)) "Batch closed" ;;
  write (fun s =>
           set_batches batchId (Batch.set_closed true (batches s batchId)) s) ;;
  write (fun s =>
           set_batches batchId
             (Batch.set_closedAt (block_timestamp tx) (batches s batchId)) s) ;;
  emit (Event.BatchClosed batchId).

Definition submitCrop (E : Env) (tx : Tx) (batchId : uint256)
  (yield_ resistance_ growthRate_ : euint32) : M unit :=
  onlyProvider tx ;;
  whenNotPaused ;;
  interval <- read cooldownInterval ;;
  checkCooldown tx interval ;;
  batch <- read (fun s => batches s batchId) ;;
  require (Batch.exists_ batch) "Batch not found" ;;
  require (negb (Batch.closed batch)) "Batch closed" ;;
  cur <- read currentModelVersion ;;
  require (Batch.modelVersion batch =? cur) "Stale batch" ;;
  currentSize <- read (fun s => batchSizes s batchId cur) ;;
  limit <- read batchSizeLimit ;;
  require (currentSize <? limit) "Batch full" ;;
  let totalScore := FHE_add E (FHE_add E yield_ resistance_) growthRate_ in
  acc0 <- read (fun s => batchAccumulators s batchId cur) ;;
  let acc1 :=
    if negb (FHE_isInitialized E acc0) then FHE_asEuint32 E 0 else acc0 in
  let acc2 := FHE_add E acc1 totalScore in
  write (set_batchAccumulators batchId cur acc2) ;;
  size' <- checked_add currentSize 1 ;;
  write (set_batchSizes batchId cur size') ;;
  write (set_batchVersions batchId cur cur) ;;
  write (set_lastActionAt (msg_sender tx) (block_timestamp tx)) ;;
  emit (Event.CropSubmitted (msg_sender tx) batchId cur).

(** ** Decryption-oracle protocol *)

Definition requestBatchDecryption (E : Env) (tx : Tx) (batchId : uint256)
  : M unit :=
  whenNotPaused ;;
  interval <- read cooldownInterval ;;
  checkCooldown tx interval ;;
  batch <- read (fun s => batches s batchId) ;;
  require (Batch.exists_ batch) "Batch not found" ;;
  require (Batch.closed batch) "Batch not closed" ;;
  cur <- read currentModelVersion ;;
  require (Batch.modelVersion batch =? cur) "Stale batch" ;;
  acc <- read (fun s => batchAccumulators s batchId cur) ;;
  _requireInitialized E acc ;;
  let cts := [FHE_toBytes32 E acc] in
  let stateHash := _hashCiphertexts E cts in
  let requestId := oracle_requestId tx in
  write (set_decryptionContexts requestId
           (DecryptionContext.mk batchId cur stateHash false (msg_sender tx))) ;;
  write (set_lastActionAt (msg_sender tx) (block_timestamp tx)) ;;
  emit (Event.DecryptionRequested requestId batchId (msg_sender tx)).

Definition onBatchDecrypted (E : Env) (requestId : uint256)
  (cleartexts proof : bytes) : M unit :=
  ctx <- read (fun s => decryptionContexts s requestId) ;;
  require (negb (DecryptionContext.processed ctx)) "Request processed" ;;
  require (negb (DecryptionContext.requester ctx =? 0)) "Invalid context" ;;
  batch <- read (fun s => batches s (DecryptionContext.batchId ctx)) ;;
  require (Batch.exists_ batch) "Batch not found" ;;
  require (Batch.closed batch) "Batch not closed" ;;
  require (Batch.modelVersion batch =? DecryptionContext.modelVersion ctx)
    "Version mismatch" ;;
  acc <- read (fun s =>
                 batchAccumulators s (DecryptionContext.batchId ctx)
                   (DecryptionContext.modelVersion ctx)) ;;
  _requireInitialized E acc ;;
  let currentCts := [FHE_toBytes32 E acc] in
  let currentStateHash := _hashCiphertexts E currentCts in
  require (currentStateHash =? DecryptionContext.stateHash ctx)
    "State hash mismatch" ;;
  (if FHE_checkSignatures E requestId cleartexts proof then ret tt
   else revert InvalidSignatures) ;;
  totalScore <- match abi_decode_uint32 cleartexts with
                | Some v => ret v
                | None => revert AbiDecodeFailed
                end ;;
  write (fun s =>
           set_decryptionContexts requestId
             (DecryptionContext.set_processed true
                (decryptionContexts s requestId)) s) ;;
  bid <- read (fun s => DecryptionContext.batchId (decryptionContexts s requestId)) ;;
  emit (Event.DecryptionCompleted requestId bid totalScore).

(** ** Transactions *)

Inductive Call :=
| TransferOwnership (newOwner : address)
| AddProvider (provider : address)
| RemoveProvider (provider : address)
| SetPaused (_paused : bool)
| SetCooldownInterval (newInterval : uint256)
| SetBatchSizeLimit (newLimit : uint256)
| IncrementModelVersion
| OpenBatch
| CloseBatch (batchId : uint256)
| SubmitCrop (batchId : uint256) (yield_ resistance_ growthRate_ : euint32)
| RequestBatchDecryption (batchId : uint256)
| OnBatchDecrypted (requestId : uint256) (cleartexts proof : bytes).

Definition dispatch (E : Env) (tx : Tx) (c : Call) : M unit :=
  match c with
  | TransferOwnership a => transferOwnership tx a
  | AddProvider a => addProvider tx a
  | RemoveProvider a => removeProvider tx a
  | SetPaused b => setPaused tx b
  | SetCooldownInterval n => setCooldownInterval tx n
  | SetBatchSizeLimit n => setBatchSizeLimit tx n
  | IncrementModelVersion => incrementModelVersion tx
  | OpenBatch => openBatch E tx
  | CloseBatch b => closeBatch tx b
  | SubmitCrop b y r g => submitCrop E tx b y r g
  | RequestBatchDecryption b => requestBatchDecryption E tx b
  | OnBatchDecrypted rid ct pf => onBatchDecrypted E rid ct pf
  end.

(** One transaction as the chain sees it: a reverted call is rolled back. *)
Definition transact (E : Env) (s : State) (t : Tx * Call) : State :=
  match dispatch E (fst t) (snd t) s with
  | Done _ s' => s'
  | Revert _ _ => s
  end.

Definition run (E : Env) (s : State) (trace : list (Tx * Call)) : State :=
  fold_left (transact E) trace s.

(** ** A reference environment

    Cleartext arithmetic stands in for the coprocessor: handle [0] is the
    uninitialised handle and handle [v + 1] holds the value [v].  The
    hash is a polynomial fold and the verifier accepts any non-empty
    proof.  It is used to run concrete traces. *)

Definition ref_dec (h : euint32) : Z :=
  if h =? 0 then 0 else (h - 1) mod 2 ^ 32.

Definition ref_keccak256 (bs : bytes) : bytes32 :=
  fold_left (fun h b => (h * 257 + Z_of_byte b + 1) mod 2 ^ 256) bs 0.

Definition refEnv : Env :=
  mkEnv 4919
    ref_keccak256
    (fun h => negb (h =? 0))
    (fun n => n mod 2 ^ 32 + 1)
    (fun a b => (ref_dec a + ref_dec b) mod 2 ^ 32 + 1)
    (fun h => h)
    (fun _ _ pf => match pf with [] => false | _ => true end).

(** Encryption of a cleartext in the reference environment. *)
Definition ref_enc (v : Z) : euint32 := v mod 2 ^ 32 + 1.

(** ** Concrete scenarios in the reference environment *)

Definition alice : address := 1001.
Definition bob : address := 2002.

Definition genesis : State :=
  match deploy (mkTx alice 0 0) with
  | Done _ s => s
  | Revert _ s => s
  end.

(** The identifier [openBatch] derives at version 1 and timestamp 100. *)
Definition B1 : uint256 :=
  keccak256 refEnv (abi_encodePacked_id (this refEnv) 1 100).

(** Scenario A up to closing: two contributions (3, 4) and (5, 2). *)
Definition scenario_closed : list (Tx * Call) :=
  [ (mkTx alice 100 0, OpenBatch);
    (mkTx alice 110 0, SubmitCrop B1 (ref_enc 3) (ref_enc 4) (ref_enc 0));
    (mkTx alice 120 0, SubmitCrop B1 (ref_enc 5) (ref_enc 2) (ref_enc 0));
    (mkTx alice 121 0, CloseBatch B1) ].

Definition closed_state : State := run refEnv genesis scenario_closed.

(** Scenario A continued: a decryption request numbered 77, and its
    callback with cleartext 14 = 3 + 4 + 5 + 2. *)
Definition requested_state : State :=
  run refEnv genesis
    (scenario_closed ++ [(mkTx bob 130 77, RequestBatchDecryption B1)]).

Definition completed_state : State :=
  transact refEnv requested_state
    (mkTx bob 140 0, OnBatchDecrypted 77 (word 14) [x01]).

(** The same batch just before it is closed. *)
Definition open_state : State := run refEnv genesis (firstn 3 scenario_closed).

(** ** Call classes *)

Definition pause_gated (c : Call) : bool :=
  match c with
  | OpenBatch | CloseBatch _ | SubmitCrop _ _ _ _ | RequestBatchDecryption _ =>
      true
  | _ => false
  end.

Definition provider_gated (c : Call) : bool :=
  match c with
  | OpenBatch | CloseBatch _ | SubmitCrop _ _ _ _ => true
  | _ => false
  end.

(** ** Observations on the event log *)

Definition is_completed (rid : uint256) (e : Event.t) : bool :=
  match e with
  | Event.DecryptionCompleted r _ _ => r =? rid
  | _ => false
  end.

Definition is_requested (rid : uint256) (e : Event.t) : bool :=
  match e with
  | Event.DecryptionRequested r _ _ => r =? rid
  | _ => false
  end.

Definition completed_count (rid : uint256) (evs : list Event.t) : nat :=
  length (filter (is_completed rid) evs).

Definition was_requested (rid : uint256) (evs : list Event.t) : bool :=
  existsb (is_requested rid) evs.

(** ** Traces

    The decryption oracle numbers its requests: the identifier it hands
    back to a request is one it has not handed back before. *)

Definition fresh_request (s : State) (t : Tx * Call) : bool :=
  match snd t with
  | RequestBatchDecryption _ =>
      negb (was_requested (oracle_requestId (fst t)) (events s))
  | _ => true
  end.

Fixpoint fresh_trace (E : Env) (s : State) (trace : list (Tx * Call)) : bool :=
  match trace with
  | [] => true
  | t :: rest => fresh_request s t && fresh_trace E (transact E s t) rest
  end.

Inductive Reachable (E : Env) : State -> Prop :=
| reach_deploy tx s :
    deploy tx = Done tt s -> Reachable E s
| reach_step s t :
    Reachable E s -> fresh_request s t = true -> Reachable E (transact E s t).

(** No [setBatchSizeLimit] in the trace sets the limit below a count that
    is already stored. *)
Fixpoint limit_covers_counts (E : Env) (s : State) (trace : list (Tx * Call))
  : Prop :=
  match trace with
  | [] => True
  | t :: rest =>
      match snd t with
      | SetBatchSizeLimit n => forall b v, batchSizes s b v <= n
      | _ => True
      end /\ limit_covers_counts E (transact E s t) rest
  end.

(** ** The homomorphic interface

    What the contract relies on from the library: a decryption [dec]
    under which [FHE.add] is addition modulo [2^32] and [FHE.asEuint32]
    encrypts its argument, and result handles that are initialised. *)

Record FHELaws (E : Env) (dec : euint32 -> Z) : Prop := {
  dec_range : forall h, 0 <= dec h < 2 ^ 32;
  dec_asEuint32 : forall n, dec (FHE_asEuint32 E n) = n mod 2 ^ 32;
  dec_add : forall a b, dec (FHE_add E a b) = (dec a + dec b) mod 2 ^ 32;
  add_initialized : forall a b, FHE_isInitialized E (FHE_add E a b) = true
}.

Arguments dec_range {E dec} _ h.
Arguments dec_asEuint32 {E dec} _ n.
Arguments dec_add {E dec} _ a b.
Arguments add_initialized {E dec} _ a b.

Definition Contribution : Type := euint32 * euint32 * euint32.

(** [yield_.add(resistance_).add(growthRate_)] *)
Definition totalScore (E : Env) (c : Contribution) : euint32 :=
  let '(y, r, g) := c in FHE_add E (FHE_add E y r) g.

(** The contribution a transaction adds under the key [(b, v)]: the
    fields of a [submitCrop] that succeeds for batch [b] while the
    current version is [v]. *)
Definition accepted_here (E : Env) (b v : uint256) (s : State)
  (t : Tx * Call) : list Contribution :=
  match snd t with
  | SubmitCrop b' y r g =>
      match dispatch E (fst t) (snd t) s with
      | Done _ _ =>
          if (b' =? b) && (currentModelVersion s =? v) then [(y, r, g)]
          else []
      | Revert _ _ => []
      end
  | _ => []
  end.

Fixpoint accepted (E : Env) (b v : uint256) (s : State)
  (trace : list (Tx * Call)) : list Contribution :=
  match trace with
  | [] => []
  | t :: rest => accepted_here E b v s t ++ accepted E b v (transact E s t) rest
  end.

(** The cleartext behind the accumulator, read through [_initIfNeeded]. *)
Definition accumulator_value (E : Env) (dec : euint32 -> Z) (s : State)
  (b v : uint256) : Z :=
  dec (_initIfNeeded E (batchAccumulators s b v)).

Definition sumZ (l : list Z) : Z := fold_right Z.add 0 l.

(** Two distinct inputs with the same digest. *)
Definition collision (E : Env) (x y : bytes) : Prop :=
  x <> y /\ keccak256 E x = keccak256 E y.

(** ** Bookkeeping invariant of the decryption contexts

    For each request identifier: [DecryptionCompleted] has been logged
    once if the context is processed and never otherwise; a context with
    a requester was created by a logged request; a processed context has
    a requester. *)
Definition ctx_inv (s : State) : Prop :=
  forall rid,
    completed_count rid (events s) =
      (if DecryptionContext.processed (decryptionContexts s rid)
       then 1%nat else 0%nat) /\
    (DecryptionContext.requester (decryptionContexts s rid) <> 0 ->
     was_requested rid (events s) = true) /\
    (DecryptionContext.processed (decryptionContexts s rid) = true ->
     DecryptionContext.requester (decryptionContexts s rid) <> 0).

(** What [submitCrop] does to an accumulator handle with one contribution. *)
Definition accumulate (E : Env) (acc : euint32) (c : Contribution) : euint32 :=
  FHE_add E (_initIfNeeded E acc) (totalScore E c).

(** ** Further call classes and observations *)

Definition owner_only (c : Call) : bool :=
  match c with
  | TransferOwnership _ | AddProvider _ | RemoveProvider _ | SetPaused _
  | SetCooldownInterval _ | SetBatchSizeLimit _ | IncrementModelVersion =>
      true
  | _ => false
  end.

(** The functions behind [checkCooldown]. *)
Definition rate_limited (c : Call) : bool :=
  match c with
  | OpenBatch | SubmitCrop _ _ _ _ | RequestBatchDecryption _ => true
  | _ => false
  end.

(** The owner-controlled part of the storage. *)
Definition same_config (s s' : State) : Prop :=
  owner s' = owner s /\
  paused s' = paused s /\
  cooldownInterval s' = cooldownInterval s /\
  batchSizeLimit s' = batchSizeLimit s /\
  currentModelVersion s' = currentModelVersion s /\
  providers s' = providers s.

(** The batch-side part of the storage. *)
Definition same_batches (s s' : State) : Prop :=
  batches s' = batches s /\
  batchAccumulators s' = batchAccumulators s /\
  batchSizes s' = batchSizes s /\
  batchVersions s' = batchVersions s.

(** ** Small hand-written storages for concrete runs

    Batch 7 at version 1, held by provider [alice] (the owner): open and
    empty in [lab_open]; closed with two contributions summing to 14 in
    [lab_closed]. *)

Definition lab_open : State :=
  mkState alice false 10 5 1
    (upd (fun _ => false) alice true) (fun _ => 0)
    (upd (fun _ => Batch.zero) 7 (Batch.mk true false 100 0 1))
    (fun _ => DecryptionContext.zero)
    (fun _ _ => 0) (fun _ _ => 0) (fun _ _ => 0) [].

Definition lab_closed : State :=
  mkState alice false 10 5 1
    (upd (fun _ => false) alice true) (fun _ => 0)
    (upd (fun _ => Batch.zero) 7 (Batch.mk true true 100 121 1))
    (fun _ => DecryptionContext.zero)
    (upd2 (fun _ _ => 0) 7 1 (ref_enc 14))
    (upd2 (fun _ _ => 0) 7 1 2)
    (upd2 (fun _ _ => 0) 7 1 1) [].

(** The identifier [openBatch] derives in state [s] at the time of [tx]. *)
Definition openBatch_id (E : Env) (tx : Tx) (s : State) : uint256 :=
  keccak256 E
    (abi_encodePacked_id (this E) (currentModelVersion s) (block_timestamp tx)).

(** A batch that takes no more submissions: closed, or stamped with a
    version older than the current one. *)
Definition frozen (s : State) (b : uint256) : Prop :=
  Batch.exists_ (batches s b) = true /\
  (Batch.closed (batches s b) = true \/
   Batch.modelVersion (batches s b) < currentModelVersion s).

(** ** Consistency of the batch bookkeeping

    Versions and limit are at least 1; a batch that does not exist has
    the all-zero record; an existing batch is stamped with a version
    between 1 and the current one; counts are not negative; counts,
    accumulators and stored versions live only under the key of the
    stamped version of an existing batch, and [batchVersions] echoes the
    version wherever a contribution was counted. *)
Definition well_formed (s : State) : Prop :=
  1 <= currentModelVersion s /\
  1 <= batchSizeLimit s /\
  forall b,
    (Batch.exists_ (batches s b) = false -> batches s b = Batch.zero) /\
    (Batch.exists_ (batches s b) = true ->
     1 <= Batch.modelVersion (batches s b) <= currentModelVersion s) /\
    forall v,
      0 <= batchSizes s b v /\
      (0 < batchSizes s b v -> batchVersions s b v = v) /\
      (Batch.exists_ (batches s b) = false \/
       v <> Batch.modelVersion (batches s b) ->
       batchSizes s b v = 0 /\
       batchAccumulators s b v = 0 /\
       batchVersions s b v = 0).

(** ** Other instances and other intervals *)

(** The same contract code deployed at another address, over the same
    library and hash function. *)
Definition with_this (a : address) (E : Env) : Env :=
  mkEnv a (keccak256 E) (FHE_isInitialized E) (FHE_asEuint32 E) (FHE_add E)
    (FHE_toBytes32 E) (FHE_checkSignatures E).

(** Two outcomes of the same call that differ at most in the stored
    cooldown interval, which is [m] in the second. *)
Definition agree_up_to_cooldown (m : uint256) (o1 o2 : Outcome unit) : Prop :=
  match o1, o2 with
  | Done _ s1, Done _ s2 => s2 = set_cooldownInterval m s1
  | Revert e1 _, Revert e2 _ => e1 = e2
  | _, _ => False
  end.

(** ** Proof infrastructure *)

Ltac unfold_contract :=
  unfold dispatch, transferOwnership, addProvider, removeProvider, setPaused,
    setCooldownInterval, setBatchSizeLimit, incrementModelVersion, openBatch,
    closeBatch, submitCrop, requestBatchDecryption, onBatchDecrypted,
    _requireInitialized, onlyOwner, onlyProvider, whenNotPaused,
    checkCooldown, checked_add, require, emit, bind, ret, read, write,
    revert in *.

Ltac case_if :=
  match goal with
  | H : context [if ?b then _ else _] |- _ =>
      let Hb := fresh "Hb" in destruct b eqn:Hb
  | H : context [match ?o with Some _ => _ | None => _ end] |- _ =>
      let Ho := fresh "Ho" in destruct o eqn:Ho
  | |- context [if ?b then _ else _] =>
      let Hb := fresh "Hb" in destruct b eqn:Hb
  | |- context [match ?o with Some _ => _ | None => _ end] =>
      let Ho := fresh "Ho" in destruct o eqn:Ho
  end.

Ltac zbool :=
  repeat match goal with
    | H : (_ <=? _) = true |- _ => apply Z.leb_le in H
    | H : (_ <=? _) = false |- _ => apply Z.leb_gt in H
    | H : (_ <? _) = true |- _ => apply Z.ltb_lt in H
    | H : (_ <? _) = false |- _ => apply Z.ltb_ge in H
    | H : (_ =? _) = true |- _ => apply Z.eqb_eq in H
    | H : (_ =? _) = false |- _ => apply Z.eqb_neq in H
    | H : negb _ = true |- _ => apply negb_true_iff in H
    | H : negb _ = false |- _ => apply negb_false_iff in H
    end.

(** *** No storage write precedes a failed check *)

Lemma dispatch_revert_unchanged E tx c s e s' :
  batchSizeLimit s <= MAX_UINT256 ->
  dispatch E tx c s = Revert e s' ->
  s' = s.
Proof.
  intros Hlim H. destruct s.
  destruct c; unfold_contract; cbn in *;
    repeat (case_if; cbn in * ); try discriminate;
    try (inversion H; reflexivity).
  all: zbool; exfalso; lia.
Qed.

Lemma deploy_done tx :
  deploy tx =
  Done tt
    (mkState (msg_sender tx) false 10 5 1
       (upd (fun _ => false) (msg_sender tx) true) (fun _ => 0)
       (fun _ => Batch.zero) (fun _ => DecryptionContext.zero)
       (fun _ _ => 0) (fun _ _ => 0) (fun _ _ => 0)
       [Event.ProviderAdded (msg_sender tx); Event.ModelVersionUpdated 0 1]).
Proof. reflexivity. Qed.

Lemma checkCooldown_ok tx interval s :
  lastActionAt s (msg_sender tx) + interval <= MAX_UINT256 ->
  lastActionAt s (msg_sender tx) + interval <= block_timestamp tx ->
  checkCooldown tx interval s = Done tt s.
Proof.
  intros H1 H2. unfold checkCooldown, checked_add, bind, read, ret, revert.
  apply Z.leb_le in H1. rewrite H1.
  apply Z.ltb_ge in H2. rewrite H2. reflexivity.
Qed.

(** ** Construction and owner configuration *)

(** C9: construction makes the deployer the owner and a provider at once,
    starts the model version at 1 (not 0), and emits [ProviderAdded] for
    the deployer followed by [ModelVersionUpdated(0, 1)]. *)
Theorem constructor_establishes_initial_state (tx : Tx) :
  exists s,
    deploy tx = Done tt s /\
    owner s = msg_sender tx /\
    providers s (msg_sender tx) = true /\
    providers s (owner s) = true /\
    currentModelVersion s = 1 /\
    currentModelVersion s <> 0 /\
    events s =
      [Event.ProviderAdded (msg_sender tx); Event.ModelVersionUpdated 0 1].
Proof.
  eexists. split; [apply deploy_done|]. cbn. unfold upd.
  rewrite Z.eqb_refl. repeat split; discriminate.
Qed.


(** ** Failure atomicity *)

(** C8: a failed call of any external function leaves the whole storage
    and the event log exactly as they were.  The body itself performs no
    write before its last check (the storage at the failing statement is
    the storage at entry), hence the transaction is a no-op.  The only
    premise is the range of the [uint256] field [batchSizeLimit]. *)
Theorem failed_call_changes_nothing (E : Env) (tx : Tx) (c : Call)
  (s s' : State) (e : Error) :
  batchSizeLimit s <= MAX_UINT256 ->
  dispatch E tx c s = Revert e s' ->
  s' = s /\ transact E s (tx, c) = s.
Proof.
  intros Hlim H. split.
  - eapply dispatch_revert_unchanged; eassumption.
  - unfold transact. cbn [fst snd]. now rewrite H.
Qed.

(** Case analysis of one call: every branch of the body, with the storage
    it ends in. *)
Ltac case_if_in H :=
  match type of H with
  | context [if ?b then _ else _] =>
      let Hb := fresh "Hb" in destruct b eqn:Hb
  | context [match ?o with Some _ => _ | None => _ end] =>
      let Ho := fresh "Ho" in destruct o eqn:Ho
  end.

Ltac dispatch_inv H :=
  unfold dispatch, transferOwnership, addProvider, removeProvider, setPaused,
    setCooldownInterval, setBatchSizeLimit, incrementModelVersion, openBatch,
    closeBatch, submitCrop, requestBatchDecryption, onBatchDecrypted,
    _requireInitialized, onlyOwner, onlyProvider, whenNotPaused,
    checkCooldown, checked_add, require, emit, bind, ret, read, write,
    revert in H;
  cbn in H;
  repeat (case_if_in H; cbn in H); try discriminate H;
  inversion H; subst; clear H; cbn in *.

(** ** Model-version bumps and decryption requests *)

Lemma requestBatchDecryption_needs_current_version E tx b s s' :
  requestBatchDecryption E tx b s = Done tt s' ->
  Batch.modelVersion (batches s b) = currentModelVersion s.
Proof.
  intro H. destruct s. dispatch_inv H. zbool. assumption.
Qed.

(** C1, as the code has it: [requestBatchDecryption] carries its own
    ["Stale batch"] check against the current global version.  Once the
    owner has incremented the version, a request against a batch stamped
    with the version in force before the bump (or an older one) reverts
    and leaves the storage untouched; for an existing, closed batch, with
    the pause and cooldown guards passed, the reason is ["Stale batch"],
    whatever its accumulator holds.  The bump itself changes neither the
    batch records nor the accumulators. *)
Theorem request_after_version_bump_is_stale (E : Env) (txo tx : Tx)
  (b : uint256) (s s1 : State) :
  Batch.modelVersion (batches s b) <= currentModelVersion s ->
  incrementModelVersion txo s = Done tt s1 ->
  currentModelVersion s1 = currentModelVersion s + 1 /\
  batches s1 = batches s /\
  batchAccumulators s1 = batchAccumulators s /\
  (exists e, requestBatchDecryption E tx b s1 = Revert e s1) /\
  (paused s1 = false ->
   lastActionAt s1 (msg_sender tx) + cooldownInterval s1
     <= Z.min MAX_UINT256 (block_timestamp tx) ->
   Batch.exists_ (batches s1 b) = true ->
   Batch.closed (batches s1 b) = true ->
   requestBatchDecryption E tx b s1 = Revert (RequireFailed "Stale batch") s1).
Proof.
  intros Hver Hinc. destruct s. cbn in Hver.
  dispatch_inv Hinc. zbool.
  assert (Hstale :
            (Batch.modelVersion (batches0 b) =? currentModelVersion0 + 1)
            = false) by (apply Z.eqb_neq; lia).
  repeat split.
  - unfold_contract; cbn. repeat (case_if; cbn); eauto. congruence.
  - intros Hp Hcd Hex Hcl. subst. unfold_contract; cbn.
    assert (H1 : (lastActionAt0 (msg_sender tx) + cooldownInterval0
                  <=? MAX_UINT256) = true) by (apply Z.leb_le; lia).
    assert (H2 : (block_timestamp tx
                  <? lastActionAt0 (msg_sender tx) + cooldownInterval0)
                 = false) by (apply Z.ltb_ge; lia).
    rewrite H1. cbn. rewrite H2. cbn. rewrite Hex. cbn. rewrite Hcl. cbn.
    rewrite Hstale. reflexivity.
Qed.

(** ** Pausing *)

(** C2, as the code has it: while the contract is paused, each function
    that carries [whenNotPaused] ([openBatch], [closeBatch], [submitCrop],
    [requestBatchDecryption]) reverts without touching the storage.  The
    error is [Paused], except that the three provider-only functions
    check [onlyProvider] first and answer [NotProvider] to a caller who
    is not a provider. *)
Theorem paused_rejects_gated_calls (E : Env) (tx : Tx) (c : Call)
  (s : State) :
  paused s = true ->
  pause_gated c = true ->
  dispatch E tx c s =
    Revert (if provider_gated c && negb (providers s (msg_sender tx))
            then NotProvider else Paused) s /\
  transact E s (tx, c) = s.
Proof.
  intros Hp Hg.
  assert (H : dispatch E tx c s =
              Revert (if provider_gated c && negb (providers s (msg_sender tx))
                      then NotProvider else Paused) s).
  { destruct s. cbn in Hp. subst.
    destruct c; try discriminate Hg; unfold_contract; cbn;
      destruct (providers0 (msg_sender tx)); reflexivity. }
  split; [exact H|]. unfold transact. cbn [fst snd]. now rewrite H.
Qed.

Lemma failed_call_changes_nothing_witness :
  transact refEnv genesis (mkTx bob 100 0, OpenBatch) = genesis.
Proof.
  refine (proj2 (@failed_call_changes_nothing refEnv (mkTx bob 100 0)
                   OpenBatch genesis genesis NotProvider _ _)).
  - vm_compute. discriminate.
  - reflexivity.
Defined.

(** C1, as stated, fails on the Scenario-A batch: it exists, is closed and
    its accumulator under the stamped version 1 is initialised; a request
    succeeds before the bump and reverts with ["Stale batch"] after it. *)
Lemma frozen_batch_cannot_be_decrypted :
  let bumped := transact refEnv closed_state (mkTx alice 125 0, IncrementModelVersion) in
  Batch.exists_ (batches bumped B1) = true /\
  Batch.closed (batches bumped B1) = true /\
  Batch.modelVersion (batches bumped B1) = 1 /\
  FHE_isInitialized refEnv (batchAccumulators bumped B1 1) = true /\
  currentModelVersion closed_state = 1 /\
  currentModelVersion bumped = 2 /\
  (exists s', requestBatchDecryption refEnv (mkTx bob 130 77) B1 closed_state
              = Done tt s') /\
  requestBatchDecryption refEnv (mkTx bob 130 77) B1 bumped
    = Revert (RequireFailed "Stale batch") bumped.
Proof.
  cbv zeta. repeat split; try (vm_compute; reflexivity).
  eexists. vm_compute. reflexivity.
Qed.

Lemma request_after_version_bump_is_stale_witness :
  requestBatchDecryption refEnv (mkTx bob 130 77) B1
    (transact refEnv closed_state (mkTx alice 125 0, IncrementModelVersion))
  = Revert (RequireFailed "Stale batch")
      (transact refEnv closed_state (mkTx alice 125 0, IncrementModelVersion)).
Proof.
  refine (proj2 (proj2 (proj2 (proj2
    (@request_after_version_bump_is_stale refEnv (mkTx alice 125 0)
       (mkTx bob 130 77) B1 closed_state
       (transact refEnv closed_state (mkTx alice 125 0, IncrementModelVersion))
       _ _)))) _ _ _ _).
  - vm_compute. discriminate.
  - vm_compute. reflexivity.
  - reflexivity.
  - vm_compute. discriminate.
  - reflexivity.
  - reflexivity.
Defined.

(** C2, as stated, fails on the oracle callback: [onBatchDecrypted] has
    no [whenNotPaused].  With the contract paused after a request, the
    callback goes through, marks the context processed and emits
    [DecryptionCompleted].  A non-provider calling [openBatch] while
    paused gets [NotProvider], not [Paused]. *)
Lemma callback_succeeds_while_paused :
  let s := run refEnv closed_state
             [ (mkTx bob 130 77, RequestBatchDecryption B1);
               (mkTx alice 131 0, SetPaused true) ] in
  let s' := transact refEnv s (mkTx bob 140 0, OnBatchDecrypted 77 (word 14) [x01]) in
  paused s = true /\
  dispatch refEnv (mkTx bob 140 0) (OnBatchDecrypted 77 (word 14) [x01]) s
    = Done tt s' /\
  DecryptionContext.processed (decryptionContexts s 77) = false /\
  DecryptionContext.processed (decryptionContexts s' 77) = true /\
  events s' = events s ++ [Event.DecryptionCompleted 77 B1 14] /\
  dispatch refEnv (mkTx bob 140 0) OpenBatch s = Revert NotProvider s.
Proof.
  cbv zeta. repeat split; vm_compute; reflexivity.
Qed.

Lemma paused_rejects_gated_calls_witness :
  let s := transact refEnv closed_state (mkTx alice 131 0, SetPaused true) in
  dispatch refEnv (mkTx bob 140 9) (RequestBatchDecryption B1) s
    = Revert Paused s.
Proof.
  refine (proj1 (@paused_rejects_gated_calls refEnv (mkTx bob 140 9)
                   (RequestBatchDecryption B1) _ _ _)); reflexivity.
Defined.

(** ** Closing is terminal *)

Lemma closed_persists E tx c s s' b :
  dispatch E tx c s = Done tt s' ->
  Batch.exists_ (batches s b) = true /\ Batch.closed (batches s b) = true ->
  Batch.exists_ (batches s' b) = true /\ Batch.closed (batches s' b) = true.
Proof.
  intros H [Hex Hcl]. destruct s. cbn in Hex, Hcl.
  destruct c; dispatch_inv H; auto;
    unfold upd; repeat case_if; cbn; zbool; subst; auto; congruence.
Qed.

Lemma closed_persists_run E b trace :
  forall s,
    Batch.exists_ (batches s b) = true /\ Batch.closed (batches s b) = true ->
    Batch.exists_ (batches (run E s trace) b) = true /\
    Batch.closed (batches (run E s trace) b) = true.
Proof.
  induction trace as [|t rest IH]; intros s Hs; [exact Hs|].
  cbn. apply IH. unfold transact.
  destruct (dispatch E (fst t) (snd t) s) as [[] s'|e s'] eqn:Hd; [|exact Hs].
  eapply closed_persists; eassumption.
Qed.

Lemma closeBatch_closes tx b s s' :
  closeBatch tx b s = Done tt s' ->
  Batch.exists_ (batches s' b) = true /\ Batch.closed (batches s' b) = true.
Proof.
  intro H. destruct s. dispatch_inv H.
  unfold upd. rewrite Z.eqb_refl. cbn. auto.
Qed.

Lemma submitCrop_on_closed E tx b y r g s :
  Batch.exists_ (batches s b) = true ->
  Batch.closed (batches s b) = true ->
  (exists e, submitCrop E tx b y r g s = Revert e s) /\
  (providers s (msg_sender tx) = true ->
   paused s = false ->
   lastActionAt s (msg_sender tx) + cooldownInterval s
     <= Z.min MAX_UINT256 (block_timestamp tx) ->
   submitCrop E tx b y r g s = Revert (RequireFailed "Batch closed") s).
Proof.
  intros Hex Hcl. destruct s. cbn in Hex, Hcl. split.
  - unfold_contract; cbn.
    repeat (case_if; cbn); eauto; rewrite ?Hcl in *; discriminate.
  - cbn. intros Hp Hpa Hcd. unfold_contract; cbn.
    repeat (case_if; cbn); try reflexivity; try congruence;
      rewrite ?Hcl in *; try discriminate; zbool; exfalso; lia.
Qed.

(** C6: once [closeBatch] has succeeded for a batch, the closed flag
    stays set through every later sequence of transactions, and every
    later [submitCrop] for that batch reverts and changes nothing.  The
    reason is ["Batch closed"] as soon as the call gets past the
    provider, pause and cooldown modifiers; the check comes before the
    version check, so it does not matter whether the stamped version
    still equals the current one. *)
Theorem closeBatch_is_terminal (E : Env) (tx0 : Tx) (b : uint256)
  (s0 s1 : State) (trace : list (Tx * Call)) :
  closeBatch tx0 b s0 = Done tt s1 ->
  let s := run E s1 trace in
  Batch.closed (batches s b) = true /\
  (forall tx y r g,
      (exists e, submitCrop E tx b y r g s = Revert e s) /\
      transact E s (tx, SubmitCrop b y r g) = s /\
      (providers s (msg_sender tx) = true ->
       paused s = false ->
       lastActionAt s (msg_sender tx) + cooldownInterval s
         <= Z.min MAX_UINT256 (block_timestamp tx) ->
       submitCrop E tx b y r g s = Revert (RequireFailed "Batch closed") s)).
Proof.
  intros Hclose s.
  destruct (closed_persists_run E b trace s1
              (closeBatch_closes tx0 b s0 s1 Hclose)) as [Hex Hcl].
  fold s in Hex, Hcl. split; [exact Hcl|].
  intros tx y r g.
  destruct (submitCrop_on_closed E tx b y r g s Hex Hcl) as [[e He] Hwhy].
  repeat split.
  - exists e. exact He.
  - unfold transact. cbn [fst snd dispatch]. now rewrite He.
  - exact Hwhy.
Qed.

Lemma closeBatch_is_terminal_witness :
  submitCrop refEnv (mkTx alice 200 0) B1 (ref_enc 1) (ref_enc 1) (ref_enc 1)
    (run refEnv closed_state [(mkTx alice 125 0, IncrementModelVersion)])
  = Revert (RequireFailed "Batch closed")
      (run refEnv closed_state [(mkTx alice 125 0, IncrementModelVersion)]).
Proof.
  refine (proj2 (proj2 (proj2
    (@closeBatch_is_terminal refEnv (mkTx alice 121 0) B1 open_state
       closed_state [(mkTx alice 125 0, IncrementModelVersion)] _)
    (mkTx alice 200 0) (ref_enc 1) (ref_enc 1) (ref_enc 1))) _ _ _).
  - vm_compute. reflexivity.
  - reflexivity.
  - reflexivity.
  - vm_compute. discriminate.
Defined.

(** ** Capacity *)

Lemma count_step E tx c s s' :
  dispatch E tx c s = Done tt s' ->
  (forall b v, batchSizes s b v <= batchSizeLimit s) ->
  match c with
  | SetBatchSizeLimit n => forall b v, batchSizes s b v <= n
  | _ => True
  end ->
  forall b v, batchSizes s' b v <= batchSizeLimit s'.
Proof.
  intros H Hinv Hc b v. destruct s. cbn in Hinv.
  destruct c; dispatch_inv H; auto.
  all: unfold upd2, upd; zbool;
    repeat (case_if; cbn); zbool; subst; auto; lia.
Qed.

Lemma count_run E trace :
  forall s,
    (forall b v, batchSizes s b v <= batchSizeLimit s) ->
    limit_covers_counts E s trace ->
    forall b v,
      batchSizes (run E s trace) b v <= batchSizeLimit (run E s trace).
Proof.
  induction trace as [|t rest IH]; intros s Hinv Hcov; [exact Hinv|].
  destruct Hcov as [Ht Hrest]. cbn. apply IH; [|exact Hrest].
  unfold transact in *.
  destruct (dispatch E (fst t) (snd t) s) as [[] s'|e s'] eqn:Hd;
    [|exact Hinv].
  eapply count_step; eassumption.
Qed.

Lemma submitCrop_on_full E tx b y r g s :
  batchSizeLimit s <= batchSizes s b (currentModelVersion s) ->
  (exists e, submitCrop E tx b y r g s = Revert e s) /\
  (providers s (msg_sender tx) = true ->
   paused s = false ->
   lastActionAt s (msg_sender tx) + cooldownInterval s
     <= Z.min MAX_UINT256 (block_timestamp tx) ->
   Batch.exists_ (batches s b) = true ->
   Batch.closed (batches s b) = false ->
   Batch.modelVersion (batches s b) = currentModelVersion s ->
   submitCrop E tx b y r g s = Revert (RequireFailed "Batch full") s).
Proof.
  intros Hfull. destruct s. cbn in Hfull. split.
  - unfold_contract; cbn.
    repeat (case_if; cbn); eauto; zbool; exfalso; lia.
  - cbn. intros Hp Hpa Hcd Hex Hcl Hv. unfold_contract; cbn.
    repeat (case_if; cbn); try reflexivity; try congruence;
      rewrite ?Hcl in *; try discriminate; zbool; exfalso; try lia;
      try congruence.
Qed.

(** C5, as the code has it: [setBatchSizeLimit] accepts any positive
    limit, also one below a count already stored.  Short of that, every
    stored count stays within the limit: in every state reached from
    construction by transactions none of which sets the limit below an
    existing count, each count is at most the limit.  In any state, a
    [submitCrop] for a key whose count has reached the limit reverts and
    changes nothing (count and accumulator included); the reason is
    ["Batch full"] once the earlier checks have passed. *)
Theorem count_within_limit (E : Env) (tx0 : Tx) (s0 : State)
  (trace : list (Tx * Call)) :
  deploy tx0 = Done tt s0 ->
  limit_covers_counts E s0 trace ->
  (forall b v,
      batchSizes (run E s0 trace) b v <= batchSizeLimit (run E s0 trace)) /\
  (forall s tx b y r g,
      batchSizeLimit s <= batchSizes s b (currentModelVersion s) ->
      (exists e, submitCrop E tx b y r g s = Revert e s) /\
      transact E s (tx, SubmitCrop b y r g) = s /\
      (providers s (msg_sender tx) = true ->
       paused s = false ->
       lastActionAt s (msg_sender tx) + cooldownInterval s
         <= Z.min MAX_UINT256 (block_timestamp tx) ->
       Batch.exists_ (batches s b) = true ->
       Batch.closed (batches s b) = false ->
       Batch.modelVersion (batches s b) = currentModelVersion s ->
       submitCrop E tx b y r g s = Revert (RequireFailed "Batch full") s)).
Proof.
  intros Hdep Hcov. split.
  - apply count_run; [|exact Hcov].
    rewrite deploy_done in Hdep. inversion Hdep; subst. cbn. lia.
  - intros s tx b y r g Hfull.
    destruct (submitCrop_on_full E tx b y r g s Hfull) as [[e He] Hwhy].
    repeat split.
    + exists e. exact He.
    + unfold transact. cbn [fst snd dispatch]. now rewrite He.
    + exact Hwhy.
Qed.

(** C5, as stated, fails in a reachable state: two accepted submissions,
    then the owner lowers the limit to 1. *)
Lemma lowered_limit_is_exceeded :
  let s := run refEnv genesis
             (firstn 3 scenario_closed ++
              [(mkTx alice 125 0, SetBatchSizeLimit 1)]) in
  batchSizes s B1 1 = 2 /\
  batchSizeLimit s = 1 /\
  ~ batchSizes s B1 1 <= batchSizeLimit s.
Proof.
  cbv zeta. repeat split; try (vm_compute; reflexivity).
  vm_compute. intro H. apply H. reflexivity.
Qed.

Lemma count_within_limit_witness :
  batchSizes open_state B1 1 <= batchSizeLimit open_state.
Proof.
  refine (proj1 (@count_within_limit refEnv (mkTx alice 0 0) genesis
                   (firstn 3 scenario_closed) _ _) B1 1).
  - reflexivity.
  - vm_compute. repeat split.
Defined.

(** ** One completion per request *)

Lemma completed_count_app rid l l' :
  completed_count rid (l ++ l') =
  (completed_count rid l + completed_count rid l')%nat.
Proof.
  unfold completed_count. rewrite filter_app, length_app. reflexivity.
Qed.

Lemma was_requested_app rid l l' :
  was_requested rid (l ++ l') = was_requested rid l || was_requested rid l'.
Proof. unfold was_requested. apply existsb_app. Qed.

Lemma events_extend E tx c s s' :
  dispatch E tx c s = Done tt s' ->
  exists l, events s' = events s ++ l.
Proof.
  intro H. destruct s.
  destruct c; dispatch_inv H;
    solve [ eexists; reflexivity | exists []; symmetry; apply app_nil_r ].
Qed.

Lemma run_cons E s t rest :
  run E s (t :: rest) = run E (transact E s t) rest.
Proof. reflexivity. Qed.

Lemma events_extend_run E trace :
  forall s, exists l, events (run E s trace) = events s ++ l.
Proof.
  induction trace as [|t rest IH]; intro s.
  - exists []. cbn. symmetry. apply app_nil_r.
  - rewrite run_cons. destruct (IH (transact E s t)) as [l Hl]. rewrite Hl.
    unfold transact.
    destruct (dispatch E (fst t) (snd t) s) as [[] s'|e s'] eqn:Hd.
    + destruct (events_extend _ _ _ _ _ Hd) as [l0 Hl0]. rewrite Hl0.
      exists (l0 ++ l). symmetry. apply app_assoc.
    + exists l. reflexivity.
Qed.

Lemma ctx_inv_deploy tx s : deploy tx = Done tt s -> ctx_inv s.
Proof.
  rewrite deploy_done. intro H. inversion H; subst. intro rid. cbn.
  repeat split; intros; congruence.
Qed.

Ltac ctx_log_simpl :=
  cbn [events decryptionContexts] in *;
  rewrite ?completed_count_app, ?was_requested_app;
  cbn [completed_count was_requested filter existsb is_completed
         is_requested length orb].

Lemma ctx_inv_step E tx c s s' :
  dispatch E tx c s = Done tt s' ->
  fresh_request s (tx, c) = true ->
  ctx_inv s ->
  ctx_inv s'.
Proof.
  intros H Hfresh Hinv. destruct s.
  destruct c; dispatch_inv H; auto; intro rid;
    destruct (Hinv rid) as [I1 [I2 I3]]; ctx_log_simpl;
    try (rewrite ?Nat.add_0_r, ?orb_false_r; repeat split; assumption).
  - (* requestBatchDecryption *)
    unfold fresh_request in Hfresh. cbn in Hfresh.
    apply negb_true_iff in Hfresh.
    unfold upd. destruct (rid =? oracle_requestId tx) eqn:Hr; cbn.
    + apply Z.eqb_eq in Hr. subst rid.
      rewrite Z.eqb_refl, orb_true_r, Nat.add_0_r.
      repeat split; try congruence.
      destruct (DecryptionContext.processed
                  (decryptionContexts0 (oracle_requestId tx))) eqn:Hp;
        [|exact I1].
      exfalso. specialize (I3 eq_refl). specialize (I2 I3).
      unfold was_requested in I2. congruence.
    + rewrite Z.eqb_sym, Hr, orb_false_r, Nat.add_0_r.
      repeat split; assumption.
  - (* onBatchDecrypted *)
    unfold upd. destruct (rid =? requestId) eqn:Hr; cbn.
    + apply Z.eqb_eq in Hr. subst rid. rewrite Z.eqb_refl. cbn.
      zbool. rewrite Hb in I1. rewrite I1, orb_false_r.
      repeat split; auto.
    + rewrite Z.eqb_sym, Hr. cbn. rewrite orb_false_r, Nat.add_0_r.
      repeat split; assumption.
Qed.

Lemma ctx_inv_transact E s t :
  fresh_request s t = true -> ctx_inv s -> ctx_inv (transact E s t).
Proof.
  intros Hf Hinv. unfold transact.
  destruct (dispatch E (fst t) (snd t) s) as [[] s'|e s'] eqn:Hd;
    [|exact Hinv].
  destruct t as [tx c]. eapply ctx_inv_step; eassumption.
Qed.

Lemma ctx_inv_reachable E s : Reachable E s -> ctx_inv s.
Proof.
  induction 1 as [tx s Hd|s t _ IH Hf].
  - eapply ctx_inv_deploy; eassumption.
  - apply ctx_inv_transact; assumption.
Qed.

Lemma reachable_run E trace :
  forall s,
    Reachable E s -> fresh_trace E s trace = true ->
    Reachable E (run E s trace).
Proof.
  induction trace as [|t rest IH]; intros s Hr Hf; [exact Hr|].
  cbn in Hf. apply andb_true_iff in Hf. destruct Hf as [Hf1 Hf2].
  rewrite run_cons. apply IH; [|exact Hf2].
  apply reach_step; assumption.
Qed.

Lemma onBatchDecrypted_done E rid ct pf s s' :
  onBatchDecrypted E rid ct pf s = Done tt s' ->
  DecryptionContext.processed (decryptionContexts s rid) = false /\
  DecryptionContext.processed (decryptionContexts s' rid) = true /\
  exists score,
    abi_decode_uint32 ct = Some score /\
    events s' =
      events s ++
      [Event.DecryptionCompleted rid
         (DecryptionContext.batchId (decryptionContexts s rid)) score].
Proof.
  intro H. destruct s. dispatch_inv H. zbool.
  unfold upd. rewrite Z.eqb_refl. cbn.
  repeat split; auto. eexists. split; reflexivity.
Qed.

Lemma onBatchDecrypted_processed E rid ct pf s :
  DecryptionContext.processed (decryptionContexts s rid) = true ->
  onBatchDecrypted E rid ct pf s = Revert (RequireFailed "Request processed") s.
Proof.
  intro Hp. destruct s. cbn in Hp.
  unfold onBatchDecrypted, require, bind, read, ret, revert. cbn.
  rewrite Hp. reflexivity.
Qed.

(** C3: for every request identifier the callback succeeds at most once.
    Right after a successful [onBatchDecrypted] for [rid], any further
    callback for [rid] reverts with ["Request processed"] and changes
    nothing, and that success logged exactly one [DecryptionCompleted].
    From a reachable state this stays so through every later sequence of
    transactions (the oracle numbering its requests afresh): the log
    holds exactly one [DecryptionCompleted] for [rid] and every callback
    for [rid] keeps reverting. *)
Theorem onBatchDecrypted_succeeds_at_most_once (E : Env) (rid : uint256)
  (ct pf : bytes) (s s' : State) :
  onBatchDecrypted E rid ct pf s = Done tt s' ->
  (forall tx ct' pf',
      onBatchDecrypted E rid ct' pf' s'
        = Revert (RequireFailed "Request processed") s' /\
      transact E s' (tx, OnBatchDecrypted rid ct' pf') = s') /\
  completed_count rid (events s') = S (completed_count rid (events s)) /\
  (Reachable E s ->
   completed_count rid (events s) = 0%nat /\
   forall trace,
     fresh_trace E s' trace = true ->
     completed_count rid (events (run E s' trace)) = 1%nat /\
     forall ct' pf',
       onBatchDecrypted E rid ct' pf' (run E s' trace)
         = Revert (RequireFailed "Request processed") (run E s' trace)).
Proof.
  intro Hok.
  destruct (onBatchDecrypted_done E rid ct pf s s' Hok)
    as [Hbefore [Hafter [score [_ Hev]]]].
  assert (Hcount : completed_count rid (events s')
                   = S (completed_count rid (events s))).
  { rewrite Hev, completed_count_app. cbn. rewrite Z.eqb_refl. cbn.
    apply Nat.add_1_r. }
  split; [|split; [exact Hcount|]].
  - intros tx ct' pf'.
    pose proof (onBatchDecrypted_processed E rid ct' pf' s' Hafter) as Hrev.
    split; [exact Hrev|].
    unfold transact. cbn [fst snd dispatch]. now rewrite Hrev.
  - intro Hreach.
    destruct (ctx_inv_reachable E s Hreach rid) as [I1 _].
    rewrite Hbefore in I1. split; [exact I1|].
    intros trace Hfresh.
    assert (Hreach' : Reachable E s').
    { replace s' with (transact E s (mkTx 0 0 0, OnBatchDecrypted rid ct pf)).
      - apply reach_step; [exact Hreach|reflexivity].
      - unfold transact. cbn [fst snd dispatch]. now rewrite Hok. }
    pose proof (reachable_run E trace s' Hreach' Hfresh) as Hreach''.
    destruct (ctx_inv_reachable E _ Hreach'' rid) as [J1 _].
    destruct (events_extend_run E trace s') as [l Hl].
    assert (Hge : (1 <= completed_count rid (events (run E s' trace)))%nat).
    { rewrite Hl, completed_count_app, Hcount, I1. apply Nat.le_add_r. }
    destruct (DecryptionContext.processed
                (decryptionContexts (run E s' trace) rid)) eqn:Hp.
    + split; [exact J1|]. intros ct' pf'.
      apply onBatchDecrypted_processed. exact Hp.
    + rewrite J1 in Hge. inversion Hge.
Qed.

Lemma requested_state_reachable : Reachable refEnv requested_state.
Proof.
  apply reachable_run.
  - apply reach_deploy with (tx := mkTx alice 0 0). reflexivity.
  - vm_compute. reflexivity.
Qed.

Lemma onBatchDecrypted_succeeds_at_most_once_witness :
  onBatchDecrypted refEnv 77 (word 14) [x01] completed_state
    = Revert (RequireFailed "Request processed") completed_state /\
  completed_count 77
    (events (run refEnv completed_state
               [(mkTx bob 150 78, RequestBatchDecryption B1)])) = 1%nat.
Proof.
  destruct (@onBatchDecrypted_succeeds_at_most_once refEnv 77 (word 14) [x01]
              requested_state completed_state) as [H1 [_ H3]].
  - vm_compute. reflexivity.
  - split.
    + exact (proj1 (H1 (mkTx bob 141 0) (word 14) [x01])).
    + refine (proj1 (proj2 (H3 requested_state_reachable)
                       [(mkTx bob 150 78, RequestBatchDecryption B1)] _)).
      vm_compute. reflexivity.
Defined.

(** ** The accumulator is the sum of the accepted contributions *)

Lemma accumulators_frame E tx c s s' :
  dispatch E tx c s = Done tt s' ->
  match c with SubmitCrop _ _ _ _ => False | _ => True end ->
  batchAccumulators s' = batchAccumulators s.
Proof.
  intros H Hc. destruct s.
  destruct c; try contradiction; dispatch_inv H; reflexivity.
Qed.

Lemma submitCrop_accumulates E tx b y r g s s' :
  submitCrop E tx b y r g s = Done tt s' ->
  batchAccumulators s' =
    upd2 (batchAccumulators s) b (currentModelVersion s)
      (FHE_add E
         (_initIfNeeded E (batchAccumulators s b (currentModelVersion s)))
         (totalScore E (y, r, g))).
Proof.
  intro H. destruct s. unfold _initIfNeeded.
  dispatch_inv H; rewrite ?Hb8; reflexivity.
Qed.

Lemma sumZ_app l l' : sumZ (l ++ l') = sumZ l + sumZ l'.
Proof.
  unfold sumZ. induction l as [|x l IH]; cbn; [reflexivity|].
  rewrite IH. lia.
Qed.

Lemma sumZ_perm l l' : Permutation l l' -> sumZ l = sumZ l'.
Proof.
  unfold sumZ. induction 1; cbn; lia.
Qed.

Section Homomorphic.

Variable E : Env.
Variable dec : euint32 -> Z.
Hypothesis laws : FHELaws E dec.

Lemma accumulator_value_range s b v :
  0 <= accumulator_value E dec s b v < 2 ^ 32.
Proof. apply (dec_range laws). Qed.

Lemma totalScore_dec y r g :
  dec (totalScore E (y, r, g)) = (dec y + dec r + dec g) mod 2 ^ 32.
Proof.
  cbn. rewrite !(dec_add laws). rewrite Z.add_mod_idemp_l by lia.
  reflexivity.
Qed.

Lemma accumulator_step s t b v :
  accumulator_value E dec (transact E s t) b v =
  (accumulator_value E dec s b v +
   sumZ (map (fun c => dec (totalScore E c)) (accepted_here E b v s t)))
  mod 2 ^ 32.
Proof.
  pose proof (accumulator_value_range s b v) as Hr.
  assert (Hid : accumulator_value E dec s b v =
                (accumulator_value E dec s b v + 0) mod 2 ^ 32).
  { rewrite Z.add_0_r, Z.mod_small; [reflexivity|exact Hr]. }
  destruct t as [tx c]. unfold transact, accepted_here. cbn [fst snd].
  destruct (dispatch E tx c s) as [[] s'|e s'] eqn:Hd.
  - destruct c;
      try (unfold accumulator_value;
           rewrite (accumulators_frame E tx _ s s' Hd I); exact Hid).
    cbn [dispatch] in Hd.
    unfold accumulator_value at 1.
    rewrite (submitCrop_accumulates _ _ _ _ _ _ _ _ Hd).
    unfold upd2, upd.
    destruct (b =? batchId) eqn:Hb.
    + apply Z.eqb_eq in Hb. subst batchId. rewrite Z.eqb_refl.
      destruct (v =? currentModelVersion s) eqn:Hv.
      * apply Z.eqb_eq in Hv. subst v. rewrite Z.eqb_refl. cbn [andb map sumZ fold_right].
        unfold _initIfNeeded at 1. rewrite (add_initialized laws). cbn [negb].
        rewrite (dec_add laws). unfold accumulator_value.
        rewrite Z.add_0_r. reflexivity.
      * rewrite Z.eqb_sym, Hv. cbn [andb map sumZ fold_right]. exact Hid.
    + rewrite Z.eqb_sym, Hb. cbn [andb map sumZ fold_right]. exact Hid.
  - destruct c; exact Hid.
Qed.

Lemma accumulator_run trace :
  forall s b v,
    accumulator_value E dec (run E s trace) b v =
    (accumulator_value E dec s b v +
     sumZ (map (fun c => dec (totalScore E c)) (accepted E b v s trace)))
    mod 2 ^ 32.
Proof.
  induction trace as [|t rest IH]; intros s b v.
  - cbn. rewrite Z.add_0_r, Z.mod_small; [reflexivity|].
    apply accumulator_value_range.
  - rewrite run_cons, IH, accumulator_step. cbn [accepted].
    rewrite map_app, sumZ_app, Z.add_mod_idemp_l by lia.
    f_equal. lia.
Qed.

End Homomorphic.

Lemma handle_step E s t b v :
  batchAccumulators (transact E s t) b v =
  fold_left (accumulate E) (accepted_here E b v s t) (batchAccumulators s b v).
Proof.
  destruct t as [tx c]. unfold transact, accepted_here. cbn [fst snd].
  destruct (dispatch E tx c s) as [[] s'|e s'] eqn:Hd.
  - destruct c;
      try (rewrite (accumulators_frame E tx _ s s' Hd I); reflexivity).
    cbn [dispatch] in Hd.
    rewrite (submitCrop_accumulates _ _ _ _ _ _ _ _ Hd).
    unfold upd2, upd.
    destruct (b =? batchId) eqn:Hb.
    + apply Z.eqb_eq in Hb. subst batchId. rewrite Z.eqb_refl.
      destruct (v =? currentModelVersion s) eqn:Hv.
      * apply Z.eqb_eq in Hv. subst v. rewrite Z.eqb_refl. reflexivity.
      * rewrite Z.eqb_sym, Hv. reflexivity.
    + rewrite Z.eqb_sym, Hb. reflexivity.
  - destruct c; reflexivity.
Qed.

Lemma handle_run E trace :
  forall s b v,
    batchAccumulators (run E s trace) b v =
    fold_left (accumulate E) (accepted E b v s trace) (batchAccumulators s b v).
Proof.
  induction trace as [|t rest IH]; intros s b v; [reflexivity|].
  rewrite run_cons, IH, handle_step. cbn [accepted].
  rewrite fold_left_app. reflexivity.
Qed.

(** C4: through any sequence of transactions, the accumulator under a key
    [(b, v)] is the fold of [FHE.add] over exactly the contributions that
    [submitCrop] accepted into that key, each contribution being
    [yield_ + resistance_ + growthRate_].  Under the homomorphism of the
    library its cleartext is the initial cleartext plus the sum of the
    accepted contributions modulo [2^32] (just the sum when the
    accumulator starts uninitialised), and it does not depend on the
    order of acceptance: two runs whose accepted contributions are
    permutations of one another end with the same cleartext. *)
Theorem accumulator_is_sum_of_accepted (E : Env) (dec : euint32 -> Z)
  (s : State) (trace : list (Tx * Call)) (b v : uint256) :
  FHELaws E dec ->
  batchAccumulators (run E s trace) b v =
    fold_left (accumulate E) (accepted E b v s trace)
      (batchAccumulators s b v) /\
  (forall y r g,
      dec (totalScore E (y, r, g)) = (dec y + dec r + dec g) mod 2 ^ 32) /\
  accumulator_value E dec (run E s trace) b v =
    (accumulator_value E dec s b v +
     sumZ (map (fun c => dec (totalScore E c)) (accepted E b v s trace)))
    mod 2 ^ 32 /\
  (FHE_isInitialized E (batchAccumulators s b v) = false ->
   accumulator_value E dec (run E s trace) b v =
     sumZ (map (fun c => dec (totalScore E c)) (accepted E b v s trace))
     mod 2 ^ 32) /\
  (forall s2 trace2,
      accumulator_value E dec s2 b v = accumulator_value E dec s b v ->
      Permutation (accepted E b v s trace) (accepted E b v s2 trace2) ->
      accumulator_value E dec (run E s2 trace2) b v =
      accumulator_value E dec (run E s trace) b v).
Proof.
  intro laws. split; [apply handle_run|].
  split; [apply totalScore_dec; exact laws|].
  split; [apply accumulator_run; exact laws|].
  split.
  - intro Huninit. rewrite (accumulator_run E dec laws).
    unfold accumulator_value, _initIfNeeded. rewrite Huninit. cbn [negb].
    rewrite (dec_asEuint32 laws). reflexivity.
  - intros s2 trace2 Hsame Hperm.
    rewrite !(accumulator_run E dec laws), Hsame.
    f_equal. f_equal. apply sumZ_perm. apply Permutation_map.
    apply Permutation_sym. exact Hperm.
Qed.

Lemma ref_laws : FHELaws refEnv ref_dec.
Proof.
  assert (Hdec : forall x, ref_dec (x mod 2 ^ 32 + 1) = x mod 2 ^ 32).
  { intro x. unfold ref_dec.
    pose proof (Z.mod_pos_bound x (2 ^ 32) eq_refl) as Hx.
    destruct (x mod 2 ^ 32 + 1 =? 0) eqn:H0.
    - apply Z.eqb_eq in H0. lia.
    - replace (x mod 2 ^ 32 + 1 - 1) with (x mod 2 ^ 32) by lia.
      apply Z.mod_mod. lia. }
  constructor.
  - intro h. unfold ref_dec. destruct (h =? 0); [lia|].
    apply Z.mod_pos_bound. reflexivity.
  - intro n. apply Hdec.
  - intros a b. apply Hdec.
  - intros a b. change (negb ((ref_dec a + ref_dec b) mod 2 ^ 32 + 1 =? 0) = true).
    pose proof (Z.mod_pos_bound (ref_dec a + ref_dec b) (2 ^ 32) eq_refl).
    apply negb_true_iff, Z.eqb_neq. lia.
Qed.

Lemma accumulator_is_sum_of_accepted_witness :
  accumulator_value refEnv ref_dec closed_state B1 1 = 14.
Proof.
  unfold closed_state.
  rewrite (proj1 (proj2 (proj2
    (@accumulator_is_sum_of_accepted refEnv ref_dec genesis scenario_closed
       B1 1 ref_laws)))).
  vm_compute. reflexivity.
Defined.

(** ** ABI words decode to what was encoded *)

Lemma Z_of_byte_of_Z z : Z_of_byte (byte_of_Z z) = z mod 256.
Proof.
  unfold Z_of_byte, byte_of_Z.
  pose proof (Z.mod_pos_bound z 256 eq_refl) as Hz.
  destruct (Byte.of_N (Z.to_N (z mod 256))) as [b|] eqn:Hb.
  - apply Byte.to_of_N in Hb. rewrite Hb. apply Z2N.id. lia.
  - apply Byte.of_N_None_iff in Hb. lia.
Qed.

Lemma be_to_Z_snoc l b : be_to_Z (l ++ [b]) = be_to_Z l * 256 + Z_of_byte b.
Proof. unfold be_to_Z. rewrite fold_left_app. reflexivity. Qed.

Lemma be_to_Z_be_bytes n :
  forall z, be_to_Z (be_bytes n z) = z mod 256 ^ Z.of_nat n.
Proof.
  induction n as [|n IH]; intro z.
  - cbn. symmetry. apply Z.mod_1_r.
  - cbn [be_bytes]. rewrite be_to_Z_snoc, IH, Z_of_byte_of_Z.
    rewrite Nat2Z.inj_succ, Z.pow_succ_r by lia.
    rewrite Z.rem_mul_r by lia. lia.
Qed.

Lemma word_inj x y :
  0 <= x <= MAX_UINT256 -> 0 <= y <= MAX_UINT256 -> word x = word y -> x = y.
Proof.
  unfold MAX_UINT256. intros Hx Hy H.
  apply (f_equal be_to_Z) in H. unfold word in H.
  rewrite !be_to_Z_be_bytes in H.
  change (256 ^ Z.of_nat 32) with (2 ^ 256) in H.
  rewrite !Z.mod_small in H by lia. exact H.
Qed.

Lemma abi_encode_cts_inj a h h' :
  0 <= h <= MAX_UINT256 -> 0 <= h' <= MAX_UINT256 ->
  abi_encode_cts [h] a = abi_encode_cts [h'] a -> h = h'.
Proof.
  intros Hh Hh' H. unfold abi_encode_cts in H. cbn [length flat_map] in H.
  do 3 apply app_inv_head in H. rewrite !app_nil_r in H.
  apply word_inj; assumption.
Qed.

Lemma be_bytes_length n : forall z, length (be_bytes n z) = n.
Proof.
  induction n as [|n IH]; intro z; [reflexivity|].
  cbn [be_bytes]. rewrite length_app, IH. cbn. lia.
Qed.

Lemma word_length z : length (word z) = 32%nat.
Proof. apply be_bytes_length. Qed.

Lemma abi_encode_cts_address_inj cts cts' a a' :
  0 <= a <= MAX_UINT256 -> 0 <= a' <= MAX_UINT256 ->
  abi_encode_cts cts a = abi_encode_cts cts' a' -> a = a'.
Proof.
  intros Ha Ha' H. unfold abi_encode_cts in H.
  apply app_inv_head in H.
  apply (f_equal (firstn 32)) in H.
  rewrite <- (word_length a) in H at 1.
  rewrite firstn_app, Nat.sub_diag, firstn_all, firstn_O, app_nil_r in H.
  rewrite <- (word_length a') in H at 1.
  rewrite firstn_app, Nat.sub_diag, firstn_all, firstn_O, app_nil_r in H.
  apply word_inj; assumption.
Qed.

(** ** The binding hash *)

Lemma requestBatchDecryption_done E tx b s s1 :
  requestBatchDecryption E tx b s = Done tt s1 ->
  decryptionContexts s1 =
    upd (decryptionContexts s) (oracle_requestId tx)
      (DecryptionContext.mk b (currentModelVersion s)
         (_hashCiphertexts E
            [FHE_toBytes32 E (batchAccumulators s b (currentModelVersion s))])
         false (msg_sender tx)).
Proof.
  intro H. destruct s. dispatch_inv H. reflexivity.
Qed.

Lemma onBatchDecrypted_checks_hash E rid ct pf s s' :
  onBatchDecrypted E rid ct pf s = Done tt s' ->
  let ctx := decryptionContexts s rid in
  _hashCiphertexts E
    [FHE_toBytes32 E
       (batchAccumulators s (DecryptionContext.batchId ctx)
          (DecryptionContext.modelVersion ctx))]
  = DecryptionContext.stateHash ctx.
Proof.
  intro H. destruct s. dispatch_inv H. zbool. assumption.
Qed.

Lemma onBatchDecrypted_accepts E rid ct pf s score :
  let ctx := decryptionContexts s rid in
  let batch := batches s (DecryptionContext.batchId ctx) in
  let acc := batchAccumulators s (DecryptionContext.batchId ctx)
               (DecryptionContext.modelVersion ctx) in
  DecryptionContext.processed ctx = false ->
  DecryptionContext.requester ctx <> 0 ->
  Batch.exists_ batch = true ->
  Batch.closed batch = true ->
  Batch.modelVersion batch = DecryptionContext.modelVersion ctx ->
  FHE_isInitialized E acc = true ->
  FHE_checkSignatures E rid ct pf = true ->
  abi_decode_uint32 ct = Some score ->
  _hashCiphertexts E [FHE_toBytes32 E acc] = DecryptionContext.stateHash ctx ->
  exists s', onBatchDecrypted E rid ct pf s = Done tt s'.
Proof.
  destruct s. cbn. intros Hp Hr Hex Hcl Hv Hi Hsig Hdec Hh.
  unfold_contract; cbn.
  apply Z.eqb_neq in Hr. apply Z.eqb_eq in Hv, Hh.
  repeat (first [rewrite Hp | rewrite Hr | rewrite Hex | rewrite Hcl
                 | rewrite Hv | rewrite Hi | rewrite Hh | rewrite Hsig
                 | rewrite Hdec]; cbn).
  eexists. reflexivity.
Qed.

Lemma onBatchDecrypted_rejects E rid ct pf s :
  let ctx := decryptionContexts s rid in
  let batch := batches s (DecryptionContext.batchId ctx) in
  let acc := batchAccumulators s (DecryptionContext.batchId ctx)
               (DecryptionContext.modelVersion ctx) in
  _hashCiphertexts E [FHE_toBytes32 E acc] <> DecryptionContext.stateHash ctx ->
  (exists e, onBatchDecrypted E rid ct pf s = Revert e s) /\
  (DecryptionContext.processed ctx = false ->
   DecryptionContext.requester ctx <> 0 ->
   Batch.exists_ batch = true ->
   Batch.closed batch = true ->
   Batch.modelVersion batch = DecryptionContext.modelVersion ctx ->
   FHE_isInitialized E acc = true ->
   onBatchDecrypted E rid ct pf s
     = Revert (RequireFailed "State hash mismatch") s).
Proof.
  destruct s. cbn. intro Hh. apply Z.eqb_neq in Hh. split.
  - unfold_contract; cbn.
    repeat (case_if; cbn); eauto; congruence.
  - intros Hp Hr Hex Hcl Hv Hi. unfold_contract; cbn.
    apply Z.eqb_neq in Hr. apply Z.eqb_eq in Hv.
    repeat (first [rewrite Hp | rewrite Hr | rewrite Hex | rewrite Hcl
                   | rewrite Hv | rewrite Hi | rewrite Hh]; cbn).
    reflexivity.
Qed.

(** C7: a successful [requestBatchDecryption] stores, in the context of
    the identifier it was given, the digest
    [keccak256(abi.encode([handle], address(this)))] of the accumulator's
    current handle and of the contract's own address.  In any later
    state that still holds this context, [onBatchDecrypted] succeeds only
    if the digest recomputed by the same function from the accumulator's
    handle at that time equals the stored one.  With the handle unchanged
    the check passes and the callback succeeds once its other
    validations do; with a different digest the callback reverts and
    changes nothing, with ["State hash mismatch"] when the earlier
    checks pass; and a different handle gives a different digest unless
    [keccak256] collides on the two encodings.  The digest covers the
    contract's identity as well: for any other address the encoding
    differs from the stored one's, whatever the handle, and unless
    [keccak256] collides the digest differs too, so that the same code
    deployed at that address rejects the context with
    ["State hash mismatch"]. *)
Theorem binding_hash_guards_callback (E : Env) (tx : Tx) (b : uint256)
  (s s1 : State) :
  requestBatchDecryption E tx b s = Done tt s1 ->
  let rid := oracle_requestId tx in
  let v := currentModelVersion s in
  let h := FHE_toBytes32 E (batchAccumulators s b v) in
  decryptionContexts s1 rid =
    DecryptionContext.mk b v (keccak256 E (abi_encode_cts [h] (this E)))
      false (msg_sender tx) /\
  forall s2 ct pf,
    decryptionContexts s2 rid = decryptionContexts s1 rid ->
    let h2 := FHE_toBytes32 E (batchAccumulators s2 b v) in
    let validated :=
      msg_sender tx <> 0 /\
      Batch.exists_ (batches s2 b) = true /\
      Batch.closed (batches s2 b) = true /\
      Batch.modelVersion (batches s2 b) = v /\
      FHE_isInitialized E (batchAccumulators s2 b v) = true in
    (forall s3,
        onBatchDecrypted E rid ct pf s2 = Done tt s3 ->
        keccak256 E (abi_encode_cts [h2] (this E)) =
        keccak256 E (abi_encode_cts [h] (this E))) /\
    (h2 = h ->
     validated ->
     FHE_checkSignatures E rid ct pf = true ->
     (exists score, abi_decode_uint32 ct = Some score) ->
     exists s3, onBatchDecrypted E rid ct pf s2 = Done tt s3) /\
    (keccak256 E (abi_encode_cts [h2] (this E)) <>
     keccak256 E (abi_encode_cts [h] (this E)) ->
     (exists e, onBatchDecrypted E rid ct pf s2 = Revert e s2) /\
     (validated ->
      onBatchDecrypted E rid ct pf s2
        = Revert (RequireFailed "State hash mismatch") s2)) /\
    (h2 <> h ->
     0 <= h <= MAX_UINT256 ->
     0 <= h2 <= MAX_UINT256 ->
     ~ collision E (abi_encode_cts [h2] (this E)) (abi_encode_cts [h] (this E)) ->
     exists e, onBatchDecrypted E rid ct pf s2 = Revert e s2) /\
    (forall a',
        a' <> this E ->
        0 <= this E <= MAX_UINT256 ->
        0 <= a' <= MAX_UINT256 ->
        abi_encode_cts [h2] a' <> abi_encode_cts [h] (this E) /\
        (~ collision E (abi_encode_cts [h2] a') (abi_encode_cts [h] (this E)) ->
         keccak256 E (abi_encode_cts [h2] a') <>
         DecryptionContext.stateHash (decryptionContexts s1 rid) /\
         (exists e,
             onBatchDecrypted (with_this a' E) rid ct pf s2 = Revert e s2) /\
         (validated ->
          onBatchDecrypted (with_this a' E) rid ct pf s2
            = Revert (RequireFailed "State hash mismatch") s2))).
Proof.
  intros Hreq rid v h.
  assert (Hctx : decryptionContexts s1 rid =
                 DecryptionContext.mk b v
                   (keccak256 E (abi_encode_cts [h] (this E)))
                   false (msg_sender tx)).
  { rewrite (requestBatchDecryption_done E tx b s s1 Hreq).
    unfold upd. fold rid. rewrite Z.eqb_refl. reflexivity. }
  split; [exact Hctx|].
  intros s2 ct pf Hsame h2 validated.
  rewrite Hctx in Hsame.
  assert (Hrej :
            keccak256 E (abi_encode_cts [h2] (this E)) <>
            keccak256 E (abi_encode_cts [h] (this E)) ->
            (exists e, onBatchDecrypted E rid ct pf s2 = Revert e s2) /\
            (validated ->
             onBatchDecrypted E rid ct pf s2
               = Revert (RequireFailed "State hash mismatch") s2)).
  { intro Hne.
    pose proof (onBatchDecrypted_rejects E rid ct pf s2) as Hr.
    cbv zeta in Hr. rewrite Hsame in Hr. cbn in Hr.
    destruct (Hr Hne) as [Hfail Hwhy]. split; [exact Hfail|].
    intros [Hsender [Hex [Hcl [Hv Hi]]]]. apply Hwhy; auto. }
  split; [|split; [|split; [exact Hrej|split]]].
  - intros s3 Hok.
    pose proof (onBatchDecrypted_checks_hash E rid ct pf s2 s3 Hok) as Hh.
    cbv zeta in Hh. rewrite Hsame in Hh. exact Hh.
  - intros Heq [Hsender [Hex [Hcl [Hv Hi]]]] Hsig [score Hdec].
    pose proof (onBatchDecrypted_accepts E rid ct pf s2 score) as Ha.
    cbv zeta in Ha. rewrite Hsame in Ha. cbn in Ha.
    apply Ha; auto. unfold _hashCiphertexts. fold h2. rewrite Heq. reflexivity.
  - intros Hne Hh Hh2 Hcoll.
    apply Hrej. intro Hk. apply Hcoll. split; [|exact Hk].
    intro Henc. apply Hne.
    apply (abi_encode_cts_inj (this E)); assumption.
  - intros a' Hother Hthis Ha'.
    assert (Henc : abi_encode_cts [h2] a' <> abi_encode_cts [h] (this E)).
    { intro Heq. apply Hother.
      apply (abi_encode_cts_address_inj [h2] [h]); assumption. }
    split; [exact Henc|].
    intro Hcoll.
    assert (Hk : keccak256 E (abi_encode_cts [h2] a') <>
                 keccak256 E (abi_encode_cts [h] (this E))).
    { intro Hk. apply Hcoll. split; assumption. }
    split; [rewrite Hctx; exact Hk|].
    pose proof (onBatchDecrypted_rejects (with_this a' E) rid ct pf s2) as Hr.
    cbv zeta in Hr. rewrite Hsame in Hr. cbn in Hr.
    destruct (Hr Hk) as [Hfail Hwhy]. split; [exact Hfail|].
    intros [Hsender [Hex [Hcl [Hv Hi]]]]. apply Hwhy; auto.
Qed.

Lemma binding_hash_guards_callback_witness :
  DecryptionContext.stateHash (decryptionContexts requested_state 77) =
    keccak256 refEnv
      (abi_encode_cts [FHE_toBytes32 refEnv (batchAccumulators closed_state B1 1)]
         (this refEnv)) /\
  (exists s3,
    onBatchDecrypted refEnv 77 (word 14) [x01] requested_state = Done tt s3) /\
  onBatchDecrypted (with_this 4920 refEnv) 77 (word 14) [x01] requested_state
    = Revert (RequireFailed "State hash mismatch") requested_state.
Proof.
  destruct (@binding_hash_guards_callback refEnv (mkTx bob 130 77) B1
              closed_state requested_state) as [Hctx Hcb].
  - vm_compute. reflexivity.
  - destruct (Hcb requested_state (word 14) [x01] eq_refl)
      as [_ [Hsame [_ [_ Hother]]]].
    assert (Hval :
              msg_sender (mkTx bob 130 77) <> 0 /\
              Batch.exists_ (batches requested_state B1) = true /\
              Batch.closed (batches requested_state B1) = true /\
              Batch.modelVersion (batches requested_state B1)
                = currentModelVersion closed_state /\
              FHE_isInitialized refEnv
                (batchAccumulators requested_state B1
                   (currentModelVersion closed_state)) = true)
      by (repeat split; vm_compute; congruence).
    split; [|split].
    + cbn [oracle_requestId] in Hctx. rewrite Hctx. reflexivity.
    + apply Hsame.
      * reflexivity.
      * exact Hval.
      * reflexivity.
      * exists 14. vm_compute. reflexivity.
    + destruct (Hother 4920) as [_ Hrej].
      * vm_compute. discriminate.
      * vm_compute. split; discriminate.
      * vm_compute. split; discriminate.
      * apply Hrej.
        -- intros [_ Hk]. vm_compute in Hk. discriminate.
        -- exact Hval.
Defined.

(** * Further properties of the contract *)

(** ** Access control *)

Lemma onlyOwner_rejects (E : Env) (tx : Tx) (c : Call)
  (s : State) :
  owner_only c = true ->
  msg_sender tx <> owner s ->
  dispatch E tx c s = Revert NotOwner s.
Proof.
  intros Hc Hne. destruct s as [own pau cool lim ver prov last bat ctxs accs sizes vers evs]. cbn in Hne. apply Z.eqb_neq in Hne.
  destruct c; try discriminate Hc; unfold_contract; cbn; rewrite Hne;
    reflexivity.
Qed.

(** X1: the seven owner-only functions revert with [NotOwner] for every
    caller other than the owner, before anything is written. *)
Theorem non_owner_admin_call_reverts (E : Env) (tx : Tx) (c : Call)
  (s : State) :
  owner_only c = true ->
  msg_sender tx <> owner s ->
  dispatch E tx c s = Revert NotOwner s.
Proof. exact (onlyOwner_rejects E tx c s). Qed.

Lemma non_owner_admin_call_reverts_witness :
  dispatch refEnv (mkTx bob 50 0) (SetBatchSizeLimit 100) genesis
  = Revert NotOwner genesis.
Proof.
  apply (non_owner_admin_call_reverts refEnv (mkTx bob 50 0)
           (SetBatchSizeLimit 100) genesis).
  - reflexivity.
  - vm_compute. discriminate.
Defined.

Lemma config_frame (E : Env) (tx : Tx) (c : Call)
  (s s' : State) :
  dispatch E tx c s = Done tt s' ->
  msg_sender tx <> owner s ->
  same_config s s'.
Proof.
  intros H Hne. destruct s as [own pau cool lim ver prov last bat ctxs accs sizes vers evs]. cbn in Hne.
  destruct c; dispatch_inv H; zbool; try contradiction;
    repeat split; reflexivity.
Qed.

(** X2: a call from anyone but the owner, whatever the function, leaves
    the owner, the pause flag, the cooldown, the capacity limit, the
    model version and the provider set as they are. *)
Theorem config_changes_only_by_owner (E : Env) (tx : Tx) (c : Call)
  (s s' : State) :
  dispatch E tx c s = Done tt s' ->
  msg_sender tx <> owner s ->
  same_config s s'.
Proof. exact (config_frame E tx c s s'). Qed.

Lemma config_changes_only_by_owner_witness :
  same_config lab_closed
    (transact refEnv lab_closed (mkTx bob 200 5, RequestBatchDecryption 7)).
Proof.
  apply (config_changes_only_by_owner refEnv (mkTx bob 200 5)
           (RequestBatchDecryption 7)).
  - reflexivity.
  - vm_compute. discriminate.
Defined.

Lemma transact_non_owner_config E s t :
  msg_sender (fst t) <> owner s -> same_config s (transact E s t).
Proof.
  intro Hne. unfold transact.
  destruct (dispatch E (fst t) (snd t) s) as [[] s'|e s'] eqn:Hd.
  - eapply config_frame; eassumption.
  - repeat split.
Qed.

(** X3: as long as no transaction comes from the owner, the whole
    owner-controlled configuration stays fixed through any sequence of
    transactions.  In particular nobody else can ever take ownership,
    unpause, or make themselves a provider. *)
Theorem config_frozen_without_owner (E : Env) (trace : list (Tx * Call)) :
  forall s,
    Forall (fun t => msg_sender (fst t) <> owner s) trace ->
    same_config s (run E s trace).
Proof.
  induction trace as [|t rest IH]; intros s Hall.
  - repeat split.
  - inversion Hall as [|t' rest' Ht Hrest]; subst.
    pose proof (transact_non_owner_config E s t Ht) as Hstep.
    rewrite run_cons.
    assert (Hrest' : Forall (fun t0 => msg_sender (fst t0)
                                       <> owner (transact E s t)) rest).
    { destruct Hstep as [Ho _]. rewrite Ho. exact Hrest. }
    specialize (IH _ Hrest').
    unfold same_config in *.
    destruct Hstep as [H1 [H2 [H3 [H4 [H5 H6]]]]].
    destruct IH as [J1 [J2 [J3 [J4 [J5 J6]]]]].
    repeat split; congruence.
Qed.

Lemma config_frozen_without_owner_witness :
  same_config lab_closed
    (run refEnv lab_closed
       [ (mkTx bob 200 5, RequestBatchDecryption 7);
         (mkTx bob 201 0, SetPaused true);
         (mkTx bob 202 0, TransferOwnership bob) ]).
Proof.
  apply config_frozen_without_owner.
  repeat constructor; vm_compute; discriminate.
Defined.

(** X4: [transferOwnership] by the owner always succeeds, with no check
    on the new address (the zero address included).  The new address
    becomes the owner, the provider set is untouched (the old owner keeps
    whatever provider role it had), [OwnershipTransferred(old, new)] is
    emitted, and from then on every owner-only call from the old owner
    reverts with [NotOwner], unless it transferred to itself. *)
Theorem transferOwnership_hands_over (E : Env) (tx : Tx)
  (newOwner : address) (s : State) :
  msg_sender tx = owner s ->
  exists s',
    transferOwnership tx newOwner s = Done tt s' /\
    owner s' = newOwner /\
    providers s' = providers s /\
    paused s' = paused s /\
    events s' = events s ++ [Event.OwnershipTransferred (owner s) newOwner] /\
    (newOwner <> owner s ->
     forall tx' c,
       msg_sender tx' = owner s ->
       owner_only c = true ->
       dispatch E tx' c s' = Revert NotOwner s').
Proof.
  intro Hown. destruct s as [own pau cool lim ver prov last bat ctxs accs sizes vers evs]. cbn in Hown. subst.
  eexists. split.
  - unfold_contract; cbn. rewrite Z.eqb_refl. reflexivity.
  - cbn. repeat split.
    intros Hne tx' c Htx' Hc.
    apply onlyOwner_rejects; [exact Hc|].
    cbn. rewrite Htx'. intro Heq. apply Hne. symmetry. exact Heq.
Qed.

Lemma transferOwnership_hands_over_witness :
  exists s',
    transferOwnership (mkTx alice 10 0) 0 genesis = Done tt s' /\
    owner s' = 0 /\
    dispatch refEnv (mkTx alice 11 0) (SetPaused true) s' = Revert NotOwner s'.
Proof.
  destruct (transferOwnership_hands_over refEnv (mkTx alice 10 0) 0 genesis)
    as [s' [H1 [H2 [_ [_ [_ H6]]]]]].
  - reflexivity.
  - exists s'. repeat split; [exact H1|exact H2|].
    apply H6; [vm_compute; discriminate|reflexivity|reflexivity].
Defined.

(** ** Providers *)

(** X5: [addProvider] and [removeProvider] are idempotent and inverse to
    one another.  Adding an address that is already a provider, or
    removing one that is not, succeeds without any write or event.
    Adding a new provider sets its flag only; removing it again restores
    the provider set, and the log gains [ProviderAdded] then
    [ProviderRemoved]. *)
Theorem provider_set_add_remove (tx : Tx) (p : address) (s : State) :
  msg_sender tx = owner s ->
  (providers s p = true -> addProvider tx p s = Done tt s) /\
  (providers s p = false -> removeProvider tx p s = Done tt s) /\
  (providers s p = false ->
   exists s1 s2,
     addProvider tx p s = Done tt s1 /\
     providers s1 p = true /\
     (forall q, q <> p -> providers s1 q = providers s q) /\
     removeProvider tx p s1 = Done tt s2 /\
     (forall q, providers s2 q = providers s q) /\
     events s2 =
       events s ++ [Event.ProviderAdded p; Event.ProviderRemoved p]).
Proof.
  intro Hown. destruct s as [own pau cool lim ver prov last bat ctxs accs sizes vers evs]. cbn in Hown. subst. cbn.
  repeat split.
  - intro Hp. unfold_contract; cbn. rewrite Z.eqb_refl; cbn. rewrite Hp. reflexivity.
  - intro Hp. unfold_contract; cbn. rewrite Z.eqb_refl; cbn. rewrite Hp. reflexivity.
  - intro Hp. eexists. eexists.
    split; [unfold_contract; cbn; rewrite Z.eqb_refl; cbn; rewrite Hp;
            reflexivity|].
    cbn. unfold upd at 1. rewrite Z.eqb_refl.
    split; [reflexivity|].
    split.
    { intros q Hq. unfold upd. apply Z.eqb_neq in Hq. rewrite Hq.
      reflexivity. }
    split.
    { unfold_contract; cbn. rewrite Z.eqb_refl; cbn. unfold upd at 1.
      rewrite Z.eqb_refl. reflexivity. }
    cbn. split.
    { intro q. unfold upd. destruct (q =? p) eqn:Hq; [|reflexivity].
      apply Z.eqb_eq in Hq. subst q. symmetry. exact Hp. }
    rewrite <- app_assoc. reflexivity.
Qed.

Lemma provider_set_add_remove_witness :
  addProvider (mkTx alice 10 0) alice genesis = Done tt genesis /\
  removeProvider (mkTx alice 10 0) bob genesis = Done tt genesis.
Proof.
  destruct (provider_set_add_remove (mkTx alice 10 0) alice genesis eq_refl)
    as [Hadd _].
  destruct (provider_set_add_remove (mkTx alice 10 0) bob genesis eq_refl)
    as [_ [Hrem _]].
  split; [apply Hadd|apply Hrem]; reflexivity.
Defined.

(** ** Owner configuration *)

(** X6: [setPaused] only acts on a transition.  Setting the flag to the
    value it already has succeeds without any write or event; otherwise
    the flag takes the new value and exactly one event is logged,
    [Paused(sender)] or [Unpaused(sender)].  The function has no pause
    guard of its own, so the owner can always unpause. *)
Theorem setPaused_acts_on_transition (tx : Tx) (flag : bool) (s : State) :
  msg_sender tx = owner s ->
  (flag = paused s -> setPaused tx flag s = Done tt s) /\
  (flag <> paused s ->
   exists s',
     setPaused tx flag s = Done tt s' /\
     paused s' = flag /\
     events s' =
       events s ++ [if flag then Event.Paused (msg_sender tx)
                    else Event.Unpaused (msg_sender tx)] /\
     owner s' = owner s /\
     batches s' = batches s /\
     decryptionContexts s' = decryptionContexts s).
Proof.
  intro Hown. destruct s as [own pau cool lim ver prov last bat ctxs accs sizes vers evs]. cbn in Hown. subst. cbn. split.
  - intro Hf. subst. unfold_contract; cbn. rewrite Z.eqb_refl; cbn.
    rewrite Bool.eqb_reflx. reflexivity.
  - intro Hf. destruct flag, pau; try congruence;
      (eexists; split;
       [unfold_contract; cbn; rewrite Z.eqb_refl; cbn; reflexivity
       |cbn; repeat split]).
Qed.

Lemma setPaused_acts_on_transition_witness :
  setPaused (mkTx alice 10 0) false genesis = Done tt genesis.
Proof.
  apply (proj1 (setPaused_acts_on_transition (mkTx alice 10 0) false genesis
                  eq_refl)).
  reflexivity.
Defined.

(** X7: [setBatchSizeLimit] rejects zero with ["Invalid limit"] and
    writes nothing; any positive limit is stored as it is and
    [BatchSizeLimitUpdated(old, new)] is emitted, the stored counts being
    left alone. *)
Theorem setBatchSizeLimit_requires_positive (tx : Tx) (newLimit : uint256)
  (s : State) :
  msg_sender tx = owner s ->
  (newLimit <= 0 ->
   setBatchSizeLimit tx newLimit s = Revert (RequireFailed "Invalid limit") s) /\
  (0 < newLimit ->
   exists s',
     setBatchSizeLimit tx newLimit s = Done tt s' /\
     batchSizeLimit s' = newLimit /\
     batchSizes s' = batchSizes s /\
     events s' =
       events s ++ [Event.BatchSizeLimitUpdated (batchSizeLimit s) newLimit]).
Proof.
  intro Hown. destruct s as [own pau cool lim ver prov last bat ctxs accs sizes vers evs]. cbn in Hown. subst. cbn. split.
  - intro Hle. unfold_contract; cbn. rewrite Z.eqb_refl; cbn.
    apply Z.ltb_ge in Hle. rewrite Hle. reflexivity.
  - intro Hlt. eexists. split.
    + unfold_contract; cbn. rewrite Z.eqb_refl; cbn.
      apply Z.ltb_lt in Hlt. rewrite Hlt. reflexivity.
    + cbn. repeat split.
Qed.

Lemma setBatchSizeLimit_requires_positive_witness :
  setBatchSizeLimit (mkTx alice 10 0) 0 genesis
  = Revert (RequireFailed "Invalid limit") genesis.
Proof.
  apply (proj1 (setBatchSizeLimit_requires_positive (mkTx alice 10 0) 0
                  genesis eq_refl)).
  lia.
Defined.

(** ** Model version *)

(** X8: [incrementModelVersion] by the owner raises the version by
    exactly one and emits [ModelVersionUpdated(old, old + 1)], touching
    no batch, accumulator or count; at [2^256 - 1] the checked increment
    reverts with [Panic(0x11)] and nothing is written. *)
Theorem incrementModelVersion_steps_by_one (tx : Tx) (s : State) :
  msg_sender tx = owner s ->
  (currentModelVersion s < MAX_UINT256 ->
   exists s',
     incrementModelVersion tx s = Done tt s' /\
     currentModelVersion s' = currentModelVersion s + 1 /\
     same_batches s s' /\
     events s' =
       events s ++
       [Event.ModelVersionUpdated (currentModelVersion s)
          (currentModelVersion s + 1)]) /\
  (MAX_UINT256 <= currentModelVersion s ->
   incrementModelVersion tx s = Revert (Panic 17) s).
Proof.
  intro Hown. destruct s as [own pau cool lim ver prov last bat ctxs accs sizes vers evs]. cbn in Hown. subst. cbn. split.
  - intro Hlt. eexists. split.
    + unfold_contract; cbn. rewrite Z.eqb_refl; cbn.
      assert (H : (ver + 1 <=? MAX_UINT256) = true)
        by (apply Z.leb_le; lia).
      rewrite H. reflexivity.
    + cbn. repeat split.
  - intro Hge. unfold_contract; cbn. rewrite Z.eqb_refl; cbn.
    assert (H : (ver + 1 <=? MAX_UINT256) = false)
      by (apply Z.leb_gt; lia).
    rewrite H. reflexivity.
Qed.

Lemma incrementModelVersion_steps_by_one_witness :
  exists s',
    incrementModelVersion (mkTx alice 10 0) genesis = Done tt s' /\
    currentModelVersion s' = 2.
Proof.
  destruct (proj1 (incrementModelVersion_steps_by_one (mkTx alice 10 0)
                     genesis eq_refl)) as [s' [H1 [H2 _]]].
  - vm_compute. reflexivity.
  - exists s'. split; [exact H1|exact H2].
Defined.

Lemma version_step E tx c s s' :
  dispatch E tx c s = Done tt s' ->
  currentModelVersion s <= currentModelVersion s'.
Proof.
  intro H. destruct s as [own pau cool lim ver prov last bat ctxs accs sizes vers evs]. destruct c; dispatch_inv H; lia.
Qed.

Lemma version_monotone_run E trace :
  forall s, currentModelVersion s <= currentModelVersion (run E s trace).
Proof.
  induction trace as [|t rest IH]; intro s; [cbn; lia|].
  rewrite run_cons. specialize (IH (transact E s t)).
  assert (currentModelVersion s <= currentModelVersion (transact E s t)).
  { unfold transact.
    destruct (dispatch E (fst t) (snd t) s) as [[] s'|e s'] eqn:Hd; [|lia].
    eapply version_step; eassumption. }
  lia.
Qed.

(** X9: the model version never decreases, whatever transactions run. *)
Theorem model_version_never_decreases (E : Env) (s : State)
  (trace : list (Tx * Call)) (v : uint256) :
  v <= currentModelVersion s ->
  v <= currentModelVersion (run E s trace).
Proof.
  intro Hv. pose proof (version_monotone_run E trace s). lia.
Qed.

Lemma model_version_never_decreases_witness :
  1 <= currentModelVersion
         (run refEnv genesis
            [ (mkTx alice 5 0, IncrementModelVersion);
              (mkTx bob 6 0, IncrementModelVersion) ]).
Proof.
  apply model_version_never_decreases. vm_compute. discriminate.
Defined.

(** ** Batch records *)

Lemma batch_step E tx c s s' b :
  dispatch E tx c s = Done tt s' ->
  Batch.exists_ (batches s b) = true ->
  Batch.exists_ (batches s' b) = true /\
  Batch.createdAt (batches s' b) = Batch.createdAt (batches s b) /\
  Batch.modelVersion (batches s' b) = Batch.modelVersion (batches s b) /\
  (Batch.closed (batches s b) = true -> batches s' b = batches s b).
Proof.
  intros H Hex.
  destruct s as [own pau cool lim ver prov last bat ctxs accs sizes vers evs].
  cbn in Hex.
  destruct c; dispatch_inv H; auto;
    unfold upd; repeat case_if; cbn; zbool; subst;
    repeat split; auto; congruence.
Qed.

Lemma batch_stable_run (E : Env) (b : uint256)
  (trace : list (Tx * Call)) :
  forall s,
    Batch.exists_ (batches s b) = true ->
    Batch.exists_ (batches (run E s trace) b) = true /\
    Batch.createdAt (batches (run E s trace) b) = Batch.createdAt (batches s b) /\
    Batch.modelVersion (batches (run E s trace) b)
      = Batch.modelVersion (batches s b) /\
    (Batch.closed (batches s b) = true ->
     batches (run E s trace) b = batches s b).
Proof.
  induction trace as [|t rest IH]; intros s Hex.
  - cbn. auto.
  - rewrite run_cons.
    assert (Hstep :
              Batch.exists_ (batches (transact E s t) b) = true /\
              Batch.createdAt (batches (transact E s t) b)
                = Batch.createdAt (batches s b) /\
              Batch.modelVersion (batches (transact E s t) b)
                = Batch.modelVersion (batches s b) /\
              (Batch.closed (batches s b) = true ->
               batches (transact E s t) b = batches s b)).
    { unfold transact.
      destruct (dispatch E (fst t) (snd t) s) as [[] s'|e s'] eqn:Hd;
        [|auto].
      eapply batch_step; eassumption. }
    destruct Hstep as [S1 [S2 [S3 S4]]].
    destruct (IH _ S1) as [I1 [I2 [I3 I4]]].
    repeat split; try congruence.
    intro Hcl. specialize (S4 Hcl). rewrite I4; [exact S4|].
    rewrite S4. exact Hcl.
Qed.

(** X10: a batch identifier is never reused.  Once a batch exists it
    exists for ever, its creation time and stamped model version never
    change, and once it is closed its whole record (close time included)
    is final. *)
Theorem batch_record_is_stable (E : Env) (b : uint256)
  (trace : list (Tx * Call)) :
  forall s,
    Batch.exists_ (batches s b) = true ->
    Batch.exists_ (batches (run E s trace) b) = true /\
    Batch.createdAt (batches (run E s trace) b) = Batch.createdAt (batches s b) /\
    Batch.modelVersion (batches (run E s trace) b)
      = Batch.modelVersion (batches s b) /\
    (Batch.closed (batches s b) = true ->
     batches (run E s trace) b = batches s b).
Proof. exact (batch_stable_run E b trace). Qed.

Lemma batch_record_is_stable_witness :
  batches
    (run refEnv lab_closed
       [ (mkTx alice 300 0, IncrementModelVersion);
         (mkTx alice 301 0, CloseBatch 7);
         (mkTx alice 302 0, OpenBatch) ]) 7
  = batches lab_closed 7.
Proof.
  refine (proj2 (proj2 (proj2
    (batch_record_is_stable refEnv 7 _ lab_closed _))) _); reflexivity.
Defined.

Lemma openBatch_done (E : Env) (tx : Tx) (s s' : State) :
  openBatch E tx s = Done tt s' ->
  let id := openBatch_id E tx s in
  Batch.exists_ (batches s id) = false /\
  batches s' id =
    Batch.mk true false (block_timestamp tx) 0 (currentModelVersion s) /\
  (forall b, b <> id -> batches s' b = batches s b) /\
  batchAccumulators s' = batchAccumulators s /\
  batchSizes s' = batchSizes s /\
  lastActionAt s' (msg_sender tx) = block_timestamp tx /\
  events s' = events s ++ [Event.BatchOpened id (currentModelVersion s)].
Proof.
  intro H.
  destruct s as [own pau cool lim ver prov last bat ctxs accs sizes vers evs].
  unfold openBatch_id. dispatch_inv H. zbool.
  unfold upd. rewrite !Z.eqb_refl.
  repeat split; auto.
  intros b Hne. apply Z.eqb_neq in Hne. rewrite Hne. reflexivity.
Qed.

(** X11: a successful [openBatch] creates, under the identifier derived
    from the contract address, the current version and the block
    timestamp, a record that was not there before: open, created now,
    never closed, stamped with the current version.  No other record, no
    accumulator and no count is written; the caller's clock is set to
    the block timestamp and [BatchOpened] is emitted. *)
Theorem openBatch_creates_fresh_record (E : Env) (tx : Tx) (s s' : State) :
  openBatch E tx s = Done tt s' ->
  let id := openBatch_id E tx s in
  Batch.exists_ (batches s id) = false /\
  batches s' id =
    Batch.mk true false (block_timestamp tx) 0 (currentModelVersion s) /\
  (forall b, b <> id -> batches s' b = batches s b) /\
  batchAccumulators s' = batchAccumulators s /\
  batchSizes s' = batchSizes s /\
  lastActionAt s' (msg_sender tx) = block_timestamp tx /\
  events s' = events s ++ [Event.BatchOpened id (currentModelVersion s)].
Proof. exact (openBatch_done E tx s s'). Qed.

Lemma openBatch_creates_fresh_record_witness :
  batches (transact refEnv genesis (mkTx alice 100 0, OpenBatch)) B1
  = Batch.mk true false 100 0 1.
Proof.
  refine (proj1 (proj2
    (openBatch_creates_fresh_record refEnv (mkTx alice 100 0) genesis
       (transact refEnv genesis (mkTx alice 100 0, OpenBatch)) _))).
  reflexivity.
Defined.

Lemma openBatch_on_existing E tx s :
  Batch.exists_ (batches s (openBatch_id E tx s)) = true ->
  (exists e, openBatch E tx s = Revert e s) /\
  (providers s (msg_sender tx) = true ->
   paused s = false ->
   lastActionAt s (msg_sender tx) + cooldownInterval s
     <= Z.min MAX_UINT256 (block_timestamp tx) ->
   openBatch E tx s = Revert (RequireFailed "Batch exists") s).
Proof.
  destruct s as [own pau cool lim ver prov last bat ctxs accs sizes vers evs].
  unfold openBatch_id. cbn. intro Hex. split.
  - unfold_contract; cbn.
    repeat (case_if; cbn); eauto; rewrite ?Hex in *; discriminate.
  - intros Hp Hpa Hcd. unfold_contract; cbn.
    repeat (case_if; cbn); try reflexivity; try congruence;
      rewrite ?Hex in *; try discriminate; zbool; exfalso; lia.
Qed.

(** X12: the batch identifier depends only on the contract address, the
    model version and the block timestamp, so at most one batch can be
    opened per version and timestamp.  After a successful [openBatch],
    and through any later transactions, every [openBatch] carrying the
    same timestamp while the version is still the same reverts and
    changes nothing, with ["Batch exists"] once the provider, pause and
    cooldown modifiers have passed (for instance a second provider in the
    same block). *)
Theorem openBatch_once_per_version_and_timestamp (E : Env) (tx tx' : Tx)
  (s s' : State) (trace : list (Tx * Call)) :
  openBatch E tx s = Done tt s' ->
  block_timestamp tx' = block_timestamp tx ->
  currentModelVersion (run E s' trace) = currentModelVersion s ->
  (exists e, openBatch E tx' (run E s' trace) = Revert e (run E s' trace)) /\
  (providers (run E s' trace) (msg_sender tx') = true ->
   paused (run E s' trace) = false ->
   lastActionAt (run E s' trace) (msg_sender tx')
     + cooldownInterval (run E s' trace)
     <= Z.min MAX_UINT256 (block_timestamp tx') ->
   openBatch E tx' (run E s' trace)
     = Revert (RequireFailed "Batch exists") (run E s' trace)).
Proof.
  intros Hopen Hts Hver.
  destruct (openBatch_done E tx s s' Hopen)
    as [_ [Hrec _]].
  assert (Hex : Batch.exists_ (batches s' (openBatch_id E tx s)) = true)
    by (rewrite Hrec; reflexivity).
  destruct (batch_stable_run E (openBatch_id E tx s) trace s' Hex)
    as [Hex' _].
  apply openBatch_on_existing.
  unfold openBatch_id in *. rewrite Hver, Hts. exact Hex'.
Qed.

Lemma openBatch_once_per_version_and_timestamp_witness :
  let s' := transact refEnv
              (transact refEnv genesis (mkTx alice 50 0, AddProvider bob))
              (mkTx alice 100 0, OpenBatch) in
  openBatch refEnv (mkTx bob 100 0) s'
  = Revert (RequireFailed "Batch exists") s'.
Proof.
  refine (proj2
    (openBatch_once_per_version_and_timestamp refEnv (mkTx alice 100 0)
       (mkTx bob 100 0)
       (transact refEnv genesis (mkTx alice 50 0, AddProvider bob))
       _ [] _ _ _) _ _ _).
  - reflexivity.
  - reflexivity.
  - reflexivity.
  - reflexivity.
  - reflexivity.
  - vm_compute. discriminate.
Defined.



(** ** Rate limiting *)

Lemma rate_limited_records_clock E tx c s s' :
  rate_limited c = true ->
  dispatch E tx c s = Done tt s' ->
  lastActionAt s' (msg_sender tx) = block_timestamp tx /\
  (forall a, a <> msg_sender tx -> lastActionAt s' a = lastActionAt s a) /\
  cooldownInterval s' = cooldownInterval s.
Proof.
  intros Hc H.
  destruct s as [own pau cool lim ver prov last bat ctxs accs sizes vers evs].
  destruct c; try discriminate Hc; dispatch_inv H;
    unfold upd; rewrite Z.eqb_refl; repeat split;
    intros a Hne; apply Z.eqb_neq in Hne; rewrite Hne; reflexivity.
Qed.

Lemma rate_limited_too_soon E tx c s :
  rate_limited c = true ->
  block_timestamp tx < lastActionAt s (msg_sender tx) + cooldownInterval s ->
  (exists e, dispatch E tx c s = Revert e s) /\
  ((provider_gated c = true -> providers s (msg_sender tx) = true) ->
   paused s = false ->
   lastActionAt s (msg_sender tx) + cooldownInterval s <= MAX_UINT256 ->
   dispatch E tx c s = Revert TooFrequent s).
Proof.
  intros Hc Hsoon.
  destruct s as [own pau cool lim ver prov last bat ctxs accs sizes vers evs].
  cbn in Hsoon. apply Z.ltb_lt in Hsoon.
  destruct c; try discriminate Hc; cbn; split.
  all: try (unfold_contract; cbn;
            repeat (case_if; cbn); eauto; congruence).
  all: intros Hp Hpa Hov; try specialize (Hp eq_refl);
    apply Z.leb_le in Hov; unfold_contract; cbn;
    rewrite ?Hp; cbn; rewrite Hpa; cbn; rewrite Hov; cbn; rewrite Hsoon;
    reflexivity.
Qed.

(** X14: the cooldown is one clock per actor, shared by [openBatch],
    [submitCrop] and [requestBatchDecryption].  A successful call of any
    of the three sets the caller's clock to the block timestamp and
    nobody else's; until [cooldownInterval] seconds have passed, every
    call of any of the three by the same actor reverts and changes
    nothing, with [TooFrequent] when the provider and pause modifiers
    pass and the deadline does not overflow. *)
Theorem cooldown_is_shared_per_actor (E : Env) (tx tx' : Tx) (c c' : Call)
  (s s' : State) :
  rate_limited c = true ->
  dispatch E tx c s = Done tt s' ->
  rate_limited c' = true ->
  msg_sender tx' = msg_sender tx ->
  block_timestamp tx' < block_timestamp tx + cooldownInterval s ->
  lastActionAt s' (msg_sender tx) = block_timestamp tx /\
  (forall a, a <> msg_sender tx -> lastActionAt s' a = lastActionAt s a) /\
  (exists e, dispatch E tx' c' s' = Revert e s') /\
  ((provider_gated c' = true -> providers s' (msg_sender tx') = true) ->
   paused s' = false ->
   block_timestamp tx + cooldownInterval s <= MAX_UINT256 ->
   dispatch E tx' c' s' = Revert TooFrequent s').
Proof.
  intros Hc Hd Hc' Hsender Hsoon.
  destruct (rate_limited_records_clock E tx c s s' Hc Hd) as [Hclock [Hoth Hcool]].
  assert (Hsoon' : block_timestamp tx'
                   < lastActionAt s' (msg_sender tx') + cooldownInterval s').
  { rewrite Hsender, Hclock, Hcool. exact Hsoon. }
  destruct (rate_limited_too_soon E tx' c' s' Hc' Hsoon') as [Hrev Hwhy].
  repeat split; auto.
  intros Hp Hpa Hov. apply Hwhy; auto.
  rewrite Hsender, Hclock, Hcool. exact Hov.
Qed.

Lemma cooldown_is_shared_per_actor_witness :
  let s' := transact refEnv lab_open
              (mkTx alice 200 0, SubmitCrop 7 (ref_enc 3) (ref_enc 4) (ref_enc 0)) in
  dispatch refEnv (mkTx alice 209 0) OpenBatch s' = Revert TooFrequent s'.
Proof.
  refine (proj2 (proj2 (proj2
    (cooldown_is_shared_per_actor refEnv (mkTx alice 200 0) (mkTx alice 209 0)
       (SubmitCrop 7 (ref_enc 3) (ref_enc 4) (ref_enc 0)) OpenBatch
       lab_open _ _ _ _ _ _))) _ _ _).
  - reflexivity.
  - reflexivity.
  - reflexivity.
  - reflexivity.
  - reflexivity.
  - intros _. reflexivity.
  - reflexivity.
  - vm_compute. discriminate.
Defined.

(** X15: the cooldown deadline is a checked addition.  When the actor's
    last action time plus the cooldown exceeds [2^256 - 1], every call of
    a rate-limited function by that actor that gets past the provider
    and pause modifiers reverts with [Panic(0x11)], at any timestamp. *)
Theorem cooldown_overflow_panics (E : Env) (tx : Tx) (c : Call) (s : State) :
  rate_limited c = true ->
  MAX_UINT256 < lastActionAt s (msg_sender tx) + cooldownInterval s ->
  (provider_gated c = true -> providers s (msg_sender tx) = true) ->
  paused s = false ->
  dispatch E tx c s = Revert (Panic 17) s.
Proof.
  intros Hc Hov Hp Hpa.
  destruct s as [own pau cool lim ver prov last bat ctxs accs sizes vers evs].
  cbn in *. apply Z.leb_gt in Hov.
  destruct c; try discriminate Hc; try specialize (Hp eq_refl);
    unfold_contract; cbn; rewrite ?Hp; cbn; rewrite Hpa; cbn; rewrite Hov;
    reflexivity.
Qed.

Lemma cooldown_overflow_panics_witness :
  let s := run refEnv lab_open
             [ (mkTx alice 200 0, SubmitCrop 7 (ref_enc 3) (ref_enc 4) (ref_enc 0));
               (mkTx alice 201 0, SetCooldownInterval MAX_UINT256) ] in
  dispatch refEnv (mkTx alice MAX_UINT256 0) OpenBatch s = Revert (Panic 17) s.
Proof.
  apply cooldown_overflow_panics.
  - reflexivity.
  - vm_compute. reflexivity.
  - intros _. reflexivity.
  - reflexivity.
Defined.

(** ** Submissions *)

Lemma sizes_frame E tx c s s' :
  dispatch E tx c s = Done tt s' ->
  match c with SubmitCrop _ _ _ _ => False | _ => True end ->
  batchSizes s' = batchSizes s.
Proof.
  intros H Hc.
  destruct s as [own pau cool lim ver prov last bat ctxs accs sizes vers evs].
  destruct c; try contradiction; dispatch_inv H; reflexivity.
Qed.

Lemma submitCrop_counts E tx b y r g s s' :
  submitCrop E tx b y r g s = Done tt s' ->
  batchSizes s' =
    upd2 (batchSizes s) b (currentModelVersion s)
      (batchSizes s b (currentModelVersion s) + 1).
Proof.
  intro H.
  destruct s as [own pau cool lim ver prov last bat ctxs accs sizes vers evs].
  dispatch_inv H; reflexivity.
Qed.

Lemma count_step_accepted E s t b v :
  batchSizes (transact E s t) b v =
  batchSizes s b v + Z.of_nat (length (accepted_here E b v s t)).
Proof.
  destruct t as [tx c]. unfold transact, accepted_here. cbn [fst snd].
  destruct (dispatch E tx c s) as [[] s'|e s'] eqn:Hd.
  - destruct c;
      try (rewrite (sizes_frame E tx _ s s' Hd I); cbn; lia).
    cbn [dispatch] in Hd.
    rewrite (submitCrop_counts _ _ _ _ _ _ _ _ Hd).
    unfold upd2, upd.
    destruct (b =? batchId) eqn:Hb.
    + apply Z.eqb_eq in Hb. subst batchId. rewrite Z.eqb_refl.
      destruct (v =? currentModelVersion s) eqn:Hv.
      * apply Z.eqb_eq in Hv. subst v. rewrite Z.eqb_refl. cbn. lia.
      * rewrite Z.eqb_sym, Hv. cbn. lia.
    + rewrite Z.eqb_sym, Hb. cbn. lia.
  - destruct c; cbn; lia.
Qed.

Lemma count_run_accepted (E : Env) (b v : uint256)
  (trace : list (Tx * Call)) :
  forall s,
    batchSizes (run E s trace) b v =
    batchSizes s b v + Z.of_nat (length (accepted E b v s trace)).
Proof.
  induction trace as [|t rest IH]; intro s.
  - cbn. lia.
  - rewrite run_cons, IH, count_step_accepted. cbn [accepted].
    rewrite length_app, Nat2Z.inj_add. lia.
Qed.

(** X16: the stored count is the number of accepted contributions.
    Through any sequence of transactions the count under a key [(b, v)]
    grows by exactly the number of [submitCrop] calls that were accepted
    into that key, one per call; nothing else changes it. *)
Theorem count_is_number_of_accepted (E : Env) (b v : uint256)
  (trace : list (Tx * Call)) :
  forall s,
    batchSizes (run E s trace) b v =
    batchSizes s b v + Z.of_nat (length (accepted E b v s trace)).
Proof. exact (count_run_accepted E b v trace). Qed.

Lemma count_run_accepted_example :
  batchSizes
    (run refEnv lab_open
       [ (mkTx alice 200 0, SubmitCrop 7 (ref_enc 3) (ref_enc 4) (ref_enc 0));
         (mkTx alice 205 0, SubmitCrop 7 (ref_enc 1) (ref_enc 1) (ref_enc 1));
         (mkTx alice 210 0, SubmitCrop 7 (ref_enc 5) (ref_enc 2) (ref_enc 0)) ])
    7 1 = 2.
Proof.
  rewrite count_run_accepted. reflexivity.
Qed.

Lemma submitCrop_on_stale E tx b y r g s :
  Batch.modelVersion (batches s b) < currentModelVersion s ->
  (exists e, submitCrop E tx b y r g s = Revert e s) /\
  (providers s (msg_sender tx) = true ->
   paused s = false ->
   lastActionAt s (msg_sender tx) + cooldownInterval s
     <= Z.min MAX_UINT256 (block_timestamp tx) ->
   Batch.exists_ (batches s b) = true ->
   Batch.closed (batches s b) = false ->
   submitCrop E tx b y r g s = Revert (RequireFailed "Stale batch") s).
Proof.
  destruct s as [own pau cool lim ver prov last bat ctxs accs sizes vers evs].
  cbn. intro Hst.
  assert (Hne : (Batch.modelVersion (bat b) =? ver) = false)
    by (apply Z.eqb_neq; lia).
  split.
  - unfold_contract; cbn.
    repeat (case_if; cbn); eauto; congruence.
  - intros Hp Hpa Hcd Hex Hcl. unfold_contract; cbn.
    rewrite Hp; cbn. rewrite Hpa; cbn.
    assert (H1 : (last (msg_sender tx) + cool <=? MAX_UINT256) = true)
      by (apply Z.leb_le; lia).
    assert (H2 : (block_timestamp tx <? last (msg_sender tx) + cool) = false)
      by (apply Z.ltb_ge; lia).
    rewrite H1; cbn. rewrite H2; cbn. rewrite Hex; cbn. rewrite Hcl; cbn.
    rewrite Hne. reflexivity.
Qed.

Lemma frozen_transact E s t b : frozen s b -> frozen (transact E s t) b.
Proof.
  intros [Hex Hwhy]. unfold transact.
  destruct (dispatch E (fst t) (snd t) s) as [[] s'|e s'] eqn:Hd;
    [|split; assumption].
  destruct (batch_step E _ _ s s' b Hd Hex) as [Hex' [_ [Hv Hcl]]].
  split; [exact Hex'|].
  destruct Hwhy as [Hclosed|Hstale].
  - left. rewrite (Hcl Hclosed). exact Hclosed.
  - right. rewrite Hv. pose proof (version_step E _ _ s s' Hd). lia.
Qed.

Lemma frozen_run E b trace : forall s, frozen s b -> frozen (run E s trace) b.
Proof.
  induction trace as [|t rest IH]; intros s Hf; [exact Hf|].
  rewrite run_cons. apply IH. apply frozen_transact. exact Hf.
Qed.

Lemma frozen_rejects E tx b y r g s :
  frozen s b -> exists e, submitCrop E tx b y r g s = Revert e s.
Proof.
  intros [Hex [Hcl|Hst]].
  - apply (submitCrop_on_closed E tx b y r g s Hex Hcl).
  - apply (submitCrop_on_stale E tx b y r g s Hst).
Qed.

Lemma frozen_accepted_here E b v s t :
  frozen s b -> accepted_here E b v s t = [].
Proof.
  intro Hf. destruct t as [tx c]. unfold accepted_here. cbn [fst snd].
  destruct c; try reflexivity.
  destruct (batchId =? b) eqn:Hb.
  - apply Z.eqb_eq in Hb. subst batchId.
    destruct (frozen_rejects E tx b yield_ resistance_ growthRate_ s Hf)
      as [e He].
    cbn [dispatch]. rewrite He. reflexivity.
  - cbn [andb]. destruct (dispatch E tx _ s); reflexivity.
Qed.

Lemma frozen_accepted E b v trace :
  forall s, frozen s b -> accepted E b v s trace = [].
Proof.
  induction trace as [|t rest IH]; intros s Hf; [reflexivity|].
  cbn [accepted]. rewrite (frozen_accepted_here E b v s t Hf).
  apply IH. apply frozen_transact. exact Hf.
Qed.

Lemma frozen_sums (E : Env) (s : State) (b : uint256)
  (trace : list (Tx * Call)) :
  frozen s b ->
  frozen (run E s trace) b /\
  forall v,
    batchAccumulators (run E s trace) b v = batchAccumulators s b v /\
    batchSizes (run E s trace) b v = batchSizes s b v.
Proof.
  intro Hf. split; [apply frozen_run; exact Hf|].
  intro v. split.
  - rewrite handle_run, (frozen_accepted E b v trace s Hf). reflexivity.
  - rewrite count_run_accepted, (frozen_accepted E b v trace s Hf).
    cbn. lia.
Qed.

(** X17: the accumulators and counts of a batch change only while the
    batch is open and its stamped version is the current one.  Once a
    batch is closed, or the model version has moved past its stamp, its
    accumulator and its count under every version key keep their values
    through any sequence of later transactions. *)
Theorem frozen_batch_keeps_its_sums (E : Env) (s : State) (b : uint256)
  (trace : list (Tx * Call)) :
  frozen s b ->
  frozen (run E s trace) b /\
  forall v,
    batchAccumulators (run E s trace) b v = batchAccumulators s b v /\
    batchSizes (run E s trace) b v = batchSizes s b v.
Proof. exact (frozen_sums E s b trace). Qed.

Lemma frozen_batch_keeps_its_sums_witness :
  batchAccumulators
    (run refEnv lab_closed
       [ (mkTx alice 300 0, SubmitCrop 7 (ref_enc 9) (ref_enc 9) (ref_enc 9));
         (mkTx alice 320 0, IncrementModelVersion) ]) 7 1
  = ref_enc 14.
Proof.
  refine (proj1 (proj2
    (frozen_batch_keeps_its_sums refEnv lab_closed 7 _ _) 1)).
  split; [reflexivity|left; reflexivity].
Defined.

(** X18: a version bump freezes older batches for writing.  For a batch
    stamped with a version below the current one, every [submitCrop]
    reverts and changes nothing, now and after any further transactions;
    the reason is ["Stale batch"] when the caller is a provider past the
    cooldown, the contract is not paused and the batch is still open. *)
Theorem submit_to_stale_batch_reverts (E : Env) (s : State) (b : uint256)
  (trace : list (Tx * Call)) (tx : Tx) (y r g : euint32) :
  Batch.exists_ (batches s b) = true ->
  Batch.modelVersion (batches s b) < currentModelVersion s ->
  (exists e,
      submitCrop E tx b y r g (run E s trace) = Revert e (run E s trace)) /\
  (providers (run E s trace) (msg_sender tx) = true ->
   paused (run E s trace) = false ->
   lastActionAt (run E s trace) (msg_sender tx)
     + cooldownInterval (run E s trace)
     <= Z.min MAX_UINT256 (block_timestamp tx) ->
   Batch.closed (batches (run E s trace) b) = false ->
   submitCrop E tx b y r g (run E s trace)
     = Revert (RequireFailed "Stale batch") (run E s trace)).
Proof.
  intros Hex Hst.
  destruct (batch_stable_run E b trace s Hex) as [Hex' [_ [Hv _]]].
  pose proof (version_monotone_run E trace s) as Hmono.
  assert (Hst' : Batch.modelVersion (batches (run E s trace) b)
                 < currentModelVersion (run E s trace))
    by (rewrite Hv; lia).
  destruct (submitCrop_on_stale E tx b y r g (run E s trace) Hst')
    as [Hrev Hwhy].
  split; [exact Hrev|].
  intros Hp Hpa Hcd Hcl. apply Hwhy; assumption.
Qed.

Lemma submit_to_stale_batch_reverts_witness :
  let s := transact refEnv lab_open (mkTx alice 150 0, IncrementModelVersion) in
  submitCrop refEnv (mkTx alice 200 0) 7 (ref_enc 1) (ref_enc 1) (ref_enc 1) s
  = Revert (RequireFailed "Stale batch") s.
Proof.
  refine (proj2
    (submit_to_stale_batch_reverts refEnv
       (transact refEnv lab_open (mkTx alice 150 0, IncrementModelVersion))
       7 [] (mkTx alice 200 0) (ref_enc 1) (ref_enc 1) (ref_enc 1) _ _)
    _ _ _ _).
  - reflexivity.
  - reflexivity.
  - reflexivity.
  - reflexivity.
  - vm_compute. discriminate.
  - reflexivity.
Defined.

(** ** Pending decryption requests *)

Lemma ctx_frame E tx c s s' rid :
  dispatch E tx c s = Done tt s' ->
  match c with
  | RequestBatchDecryption _ => oracle_requestId tx <> rid
  | OnBatchDecrypted r _ _ => r <> rid
  | _ => True
  end ->
  decryptionContexts s' rid = decryptionContexts s rid.
Proof.
  intros H Hc.
  destruct s as [own pau cool lim ver prov last bat ctxs accs sizes vers evs].
  destruct c; dispatch_inv H; try reflexivity;
    unfold upd; apply Z.eqb_neq in Hc; rewrite Z.eqb_sym, Hc; reflexivity.
Qed.

Lemma callback_marks_processed E rid ct pf s s' :
  onBatchDecrypted E rid ct pf s = Done tt s' ->
  decryptionContexts s' rid =
    DecryptionContext.set_processed true (decryptionContexts s rid) /\
  same_batches s s' /\
  same_config s s' /\
  lastActionAt s' = lastActionAt s.
Proof.
  intro H.
  destruct s as [own pau cool lim ver prov last bat ctxs accs sizes vers evs].
  dispatch_inv H. unfold upd. rewrite Z.eqb_refl. repeat split.
Qed.

Lemma requestBatchDecryption_checks E tx b s s1 :
  requestBatchDecryption E tx b s = Done tt s1 ->
  Batch.exists_ (batches s b) = true /\
  Batch.closed (batches s b) = true /\
  Batch.modelVersion (batches s b) = currentModelVersion s /\
  FHE_isInitialized E (batchAccumulators s b (currentModelVersion s)) = true /\
  same_batches s s1 /\
  events s1 =
    events s ++
    [Event.DecryptionRequested (oracle_requestId tx) b (msg_sender tx)].
Proof.
  intro H.
  destruct s as [own pau cool lim ver prov last bat ctxs accs sizes vers evs].
  dispatch_inv H. zbool. repeat split; auto.
Qed.

Lemma was_requested_transact E s t rid :
  was_requested rid (events s) = true ->
  was_requested rid (events (transact E s t)) = true.
Proof.
  intro Hr. unfold transact.
  destruct (dispatch E (fst t) (snd t) s) as [[] s'|e s'] eqn:Hd; [|exact Hr].
  destruct (events_extend E _ _ s s' Hd) as [l Hl].
  rewrite Hl, was_requested_app, Hr. reflexivity.
Qed.

Lemma pending_ctx_transact E s t rid c0 :
  was_requested rid (events s) = true ->
  fresh_request s t = true ->
  decryptionContexts s rid = c0 \/
  decryptionContexts s rid = DecryptionContext.set_processed true c0 ->
  decryptionContexts (transact E s t) rid = c0 \/
  decryptionContexts (transact E s t) rid
    = DecryptionContext.set_processed true c0.
Proof.
  intros Hreq Hfresh Hctx. unfold transact.
  destruct t as [tx c]. cbn [fst snd].
  destruct (dispatch E tx c s) as [[] s'|e s'] eqn:Hd; [|exact Hctx].
  destruct c;
    try (rewrite (ctx_frame E tx _ s s' rid Hd I); exact Hctx).
  - (* request: the identifier handed back is a new one *)
    rewrite (ctx_frame E tx _ s s' rid Hd); [exact Hctx|].
    intro Heq. unfold fresh_request in Hfresh. cbn in Hfresh.
    rewrite Heq, Hreq in Hfresh. discriminate.
  - (* callback *)
    destruct (Z.eq_dec requestId rid) as [Heq|Hne].
    + subst requestId. cbn [dispatch] in Hd.
      destruct (callback_marks_processed E rid _ _ s s' Hd) as [Hp _].
      right. rewrite Hp. destruct Hctx as [Hc|Hc]; rewrite Hc; reflexivity.
    + rewrite (ctx_frame E tx _ s s' rid Hd Hne). exact Hctx.
Qed.

Lemma pending_ctx_run E rid c0 trace :
  forall s,
    was_requested rid (events s) = true ->
    fresh_trace E s trace = true ->
    decryptionContexts s rid = c0 \/
    decryptionContexts s rid = DecryptionContext.set_processed true c0 ->
    decryptionContexts (run E s trace) rid = c0 \/
    decryptionContexts (run E s trace) rid
      = DecryptionContext.set_processed true c0.
Proof.
  induction trace as [|t rest IH]; intros s Hreq Hfresh Hctx; [exact Hctx|].
  cbn in Hfresh. apply andb_true_iff in Hfresh. destruct Hfresh as [Hf1 Hf2].
  rewrite run_cons. apply IH.
  - apply was_requested_transact. exact Hreq.
  - exact Hf2.
  - apply pending_ctx_transact; assumption.
Qed.

(** X19: nothing that happens between a request and its callback can
    invalidate the request.  After a successful
    [requestBatchDecryption], and through any later transactions
    (pausing, version bumps, limit changes, other requests and callbacks;
    the oracle handing out new identifiers), as long as the context is
    not yet processed a callback whose signatures verify and whose
    cleartext decodes goes through and emits [DecryptionCompleted] for
    the batch: the batch check, the version check and the hash check of
    [onBatchDecrypted] cannot fail for it. *)
Theorem pending_request_stays_fulfillable (E : Env) (tx : Tx) (b : uint256)
  (s s1 : State) (trace : list (Tx * Call)) (ct pf : bytes) (score : Z) :
  requestBatchDecryption E tx b s = Done tt s1 ->
  msg_sender tx <> 0 ->
  fresh_trace E s1 trace = true ->
  DecryptionContext.processed
    (decryptionContexts (run E s1 trace) (oracle_requestId tx)) = false ->
  FHE_checkSignatures E (oracle_requestId tx) ct pf = true ->
  abi_decode_uint32 ct = Some score ->
  exists s3,
    onBatchDecrypted E (oracle_requestId tx) ct pf (run E s1 trace)
      = Done tt s3 /\
    events s3 =
      events (run E s1 trace) ++
      [Event.DecryptionCompleted (oracle_requestId tx) b score].
Proof.
  intros Hreq Hsender Hfresh Hunproc Hsig Hdec.
  set (rid := oracle_requestId tx) in *.
  set (s2 := run E s1 trace) in *.
  destruct (requestBatchDecryption_checks E tx b s s1 Hreq)
    as [Hex [Hcl [Hv [Hinit [[Hb [Ha _]] Hev]]]]].
  pose proof (requestBatchDecryption_done E tx b s s1 Hreq) as Hctx1.
  fold rid in Hctx1, Hev.
  assert (Hc1 : decryptionContexts s1 rid =
                DecryptionContext.mk b (currentModelVersion s)
                  (_hashCiphertexts E
                     [FHE_toBytes32 E
                        (batchAccumulators s b (currentModelVersion s))])
                  false (msg_sender tx)).
  { rewrite Hctx1. unfold upd. rewrite Z.eqb_refl. reflexivity. }
  assert (Hreq1 : was_requested rid (events s1) = true).
  { rewrite Hev, was_requested_app. cbn. rewrite Z.eqb_refl.
    apply orb_true_r. }
  destruct (pending_ctx_run E rid _ trace s1 Hreq1 Hfresh (or_introl Hc1))
    as [Hc2|Hc2]; fold s2 in Hc2;
    [|rewrite Hc2 in Hunproc; discriminate].
  assert (Hfrozen : frozen s1 b).
  { split; [rewrite Hb; exact Hex|left; rewrite Hb; exact Hcl]. }
  destruct (frozen_sums E s1 b trace Hfrozen) as [_ Hsums].
  destruct (Hsums (currentModelVersion s)) as [Hacc _]. fold s2 in Hacc.
  assert (Hex1 : Batch.exists_ (batches s1 b) = true) by (rewrite Hb; exact Hex).
  destruct (batch_stable_run E b trace s1 Hex1) as [_ [_ [_ Hrec]]].
  assert (Hrec2 : batches s2 b = batches s b).
  { unfold s2. rewrite Hrec; rewrite Hb; [reflexivity|exact Hcl]. }
  pose proof (onBatchDecrypted_accepts E rid ct pf s2 score) as Hacc2.
  cbv zeta in Hacc2. rewrite Hc2 in Hacc2. cbn in Hacc2.
  rewrite Hrec2, Hacc, Ha in Hacc2.
  destruct (Hacc2 eq_refl Hsender Hex Hcl Hv Hinit Hsig Hdec eq_refl)
    as [s3 Hok].
  exists s3. split; [exact Hok|].
  destruct (onBatchDecrypted_done E rid ct pf s2 s3 Hok)
    as [_ [_ [score' [Hd' Hev3]]]].
  rewrite Hev3, Hc2. cbn. congruence.
Qed.

Lemma pending_request_stays_fulfillable_witness :
  let s1 := transact refEnv lab_closed
              (mkTx bob 200 5, RequestBatchDecryption 7) in
  let trace := [ (mkTx alice 201 0, SetPaused true);
                 (mkTx alice 202 0, IncrementModelVersion);
                 (mkTx alice 203 0, SetBatchSizeLimit 1) ] in
  exists s3,
    onBatchDecrypted refEnv 5 (word 14) [x01] (run refEnv s1 trace)
      = Done tt s3 /\
    events s3 =
      events (run refEnv s1 trace) ++ [Event.DecryptionCompleted 5 7 14].
Proof.
  apply (pending_request_stays_fulfillable refEnv (mkTx bob 200 5) 7
           lab_closed).
  - reflexivity.
  - vm_compute. discriminate.
  - reflexivity.
  - reflexivity.
  - reflexivity.
  - vm_compute. reflexivity.
Defined.

(** X20: a callback for an identifier the contract never issued is
    rejected.  In every reachable state, [onBatchDecrypted] with a
    request identifier for which no [DecryptionRequested] was logged
    reverts with ["Invalid context"] and changes nothing, whatever
    cleartext and proof come with it. *)
Theorem callback_for_unknown_request_reverts (E : Env) (s : State)
  (rid : uint256) (ct pf : bytes) :
  Reachable E s ->
  was_requested rid (events s) = false ->
  onBatchDecrypted E rid ct pf s = Revert (RequireFailed "Invalid context") s.
Proof.
  intros Hreach Hnot.
  destruct (ctx_inv_reachable E s Hreach rid) as [_ [I2 I3]].
  assert (Hr : DecryptionContext.requester (decryptionContexts s rid) = 0).
  { destruct (Z.eq_dec (DecryptionContext.requester (decryptionContexts s rid)) 0)
      as [H0|Hn]; [exact H0|].
    specialize (I2 Hn). congruence. }
  assert (Hp : DecryptionContext.processed (decryptionContexts s rid) = false).
  { destruct (DecryptionContext.processed (decryptionContexts s rid)) eqn:Hp;
      [|reflexivity].
    exfalso. apply (I3 eq_refl). exact Hr. }
  destruct s as [own pau cool lim ver prov last bat ctxs accs sizes vers evs].
  cbn in Hr, Hp. unfold_contract; cbn.
  rewrite Hp; cbn. rewrite Hr. reflexivity.
Qed.

Lemma callback_for_unknown_request_reverts_witness :
  onBatchDecrypted refEnv 42 (word 14) [x01] genesis
  = Revert (RequireFailed "Invalid context") genesis.
Proof.
  apply callback_for_unknown_request_reverts.
  - apply reach_deploy with (tx := mkTx alice 0 0). reflexivity.
  - reflexivity.
Defined.

Lemma onBatchDecrypted_succeeds_iff E rid ct pf s :
  (exists s', onBatchDecrypted E rid ct pf s = Done tt s') <->
  DecryptionContext.processed (decryptionContexts s rid) = false /\
  DecryptionContext.requester (decryptionContexts s rid) <> 0 /\
  Batch.exists_
    (batches s (DecryptionContext.batchId (decryptionContexts s rid))) = true /\
  Batch.closed
    (batches s (DecryptionContext.batchId (decryptionContexts s rid))) = true /\
  Batch.modelVersion
    (batches s (DecryptionContext.batchId (decryptionContexts s rid)))
    = DecryptionContext.modelVersion (decryptionContexts s rid) /\
  FHE_isInitialized E
    (batchAccumulators s
       (DecryptionContext.batchId (decryptionContexts s rid))
       (DecryptionContext.modelVersion (decryptionContexts s rid))) = true /\
  _hashCiphertexts E
    [FHE_toBytes32 E
       (batchAccumulators s
          (DecryptionContext.batchId (decryptionContexts s rid))
          (DecryptionContext.modelVersion (decryptionContexts s rid)))]
    = DecryptionContext.stateHash (decryptionContexts s rid) /\
  FHE_checkSignatures E rid ct pf = true /\
  (exists score, abi_decode_uint32 ct = Some score).
Proof.
  split.
  - intros [s' H].
    destruct s as [own pau cool lim ver prov last bat ctxs accs sizes vers evs].
    dispatch_inv H. zbool. repeat split; eauto.
  - intros [Hp [Hr [Hex [Hcl [Hv [Hi [Hh [Hsig [score Hdec]]]]]]]]].
    apply (onBatchDecrypted_accepts E rid ct pf s score); assumption.
Qed.

(** X21: requests are independent of one another.  A successful callback
    for one identifier writes only the processed flag of its own context
    (no batch, accumulator, count, clock or configuration), so for any
    other identifier a callback succeeds afterwards exactly when it would
    have succeeded before: several requests on one batch can be
    completed in any order. *)
Theorem callbacks_do_not_interfere (E : Env) (rid rid' : uint256)
  (ct pf ct' pf' : bytes) (s s1 : State) :
  onBatchDecrypted E rid ct pf s = Done tt s1 ->
  rid' <> rid ->
  decryptionContexts s1 rid' = decryptionContexts s rid' /\
  same_batches s s1 /\
  ((exists s2, onBatchDecrypted E rid' ct' pf' s1 = Done tt s2) <->
   (exists s2, onBatchDecrypted E rid' ct' pf' s = Done tt s2)).
Proof.
  intros Hok Hne.
  destruct (callback_marks_processed E rid ct pf s s1 Hok)
    as [_ [Hsame _]].
  assert (Hctx : decryptionContexts s1 rid' = decryptionContexts s rid').
  { apply (ctx_frame E (mkTx 0 0 0) (OnBatchDecrypted rid ct pf) s s1 rid').
    - exact Hok.
    - intro Heq. apply Hne. symmetry. exact Heq. }
  split; [exact Hctx|]. split; [exact Hsame|].
  destruct Hsame as [Hb [Ha _]].
  rewrite !onBatchDecrypted_succeeds_iff. rewrite Hctx, Hb, Ha. reflexivity.
Qed.

Lemma callbacks_do_not_interfere_witness :
  let s := run refEnv lab_closed
             [ (mkTx bob 200 5, RequestBatchDecryption 7);
               (mkTx bob 210 6, RequestBatchDecryption 7) ] in
  let s1 := transact refEnv s (mkTx bob 220 0, OnBatchDecrypted 6 (word 14) [x01]) in
  exists s2, onBatchDecrypted refEnv 5 (word 14) [x01] s1 = Done tt s2.
Proof.
  intros s s1.
  refine (proj2 (proj2 (proj2
    (callbacks_do_not_interfere refEnv 6 5 (word 14) [x01] (word 14) [x01]
       s s1 _ _))) _).
  - vm_compute. reflexivity.
  - discriminate.
  - exists (transact refEnv s
              (mkTx bob 230 0, OnBatchDecrypted 5 (word 14) [x01])).
    vm_compute. reflexivity.
Defined.





(** X23: only providers write batch data.  A successful call from an
    address that is not a provider, whatever the function, changes no
    batch record, accumulator, count or stored batch version. *)
Theorem batch_data_changes_only_by_providers (E : Env) (tx : Tx) (c : Call)
  (s s' : State) :
  dispatch E tx c s = Done tt s' ->
  providers s (msg_sender tx) = false ->
  same_batches s s'.
Proof.
  intros H Hnp.
  destruct s as [own pau cool lim ver prov last bat ctxs accs sizes vers evs].
  cbn in Hnp.
  destruct c; dispatch_inv H; try congruence; repeat split.
Qed.

Lemma batch_data_changes_only_by_providers_witness :
  same_batches lab_closed
    (transact refEnv lab_closed (mkTx bob 200 5, RequestBatchDecryption 7)).
Proof.
  apply (batch_data_changes_only_by_providers refEnv (mkTx bob 200 5)
           (RequestBatchDecryption 7)).
  - vm_compute. reflexivity.
  - reflexivity.
Defined.

(** ** The decoded cleartext *)

Lemma be_to_Z_nonneg bs : 0 <= be_to_Z bs.
Proof.
  unfold be_to_Z.
  assert (H : forall l acc, 0 <= acc ->
              0 <= fold_left (fun a b => a * 256 + Z_of_byte b) l acc).
  { induction l as [|x l IH]; intros acc Hacc; [exact Hacc|].
    cbn. apply IH. unfold Z_of_byte. lia. }
  apply H. lia.
Qed.

Lemma abi_decode_uint32_some data v :
  abi_decode_uint32 data = Some v ->
  (32 <= length data)%nat /\ v = be_to_Z (firstn 32 data) /\
  0 <= v <= MAX_UINT32.
Proof.
  unfold abi_decode_uint32. intro H.
  destruct (Z.of_nat (length data) <? 32) eqn:Hlen; [discriminate|].
  destruct (be_to_Z (firstn 32 data) <=? MAX_UINT32) eqn:Hr; [|discriminate].
  inversion H; subst. apply Z.ltb_ge in Hlen. apply Z.leb_le in Hr.
  pose proof (be_to_Z_nonneg (firstn 32 data)).
  split; [lia|]. split; [reflexivity|]. split; [assumption|exact Hr].
Qed.

(** X24: the total the callback publishes is the first 32-byte word of
    the cleartext read as a big-endian number.  [onBatchDecrypted]
    succeeds only when the cleartext is at least one word long and that
    word fits in [uint32]; the [DecryptionCompleted] event then carries
    the batch of the context and that number. *)
Theorem callback_publishes_decoded_word (E : Env) (rid : uint256)
  (ct pf : bytes) (s s' : State) :
  onBatchDecrypted E rid ct pf s = Done tt s' ->
  (32 <= length ct)%nat /\
  0 <= be_to_Z (firstn 32 ct) <= MAX_UINT32 /\
  events s' =
    events s ++
    [Event.DecryptionCompleted rid
       (DecryptionContext.batchId (decryptionContexts s rid))
       (be_to_Z (firstn 32 ct))].
Proof.
  intro H.
  destruct (onBatchDecrypted_done E rid ct pf s s' H)
    as [_ [_ [score [Hdec Hev]]]].
  destruct (abi_decode_uint32_some ct score Hdec) as [Hlen [Hv Hr]].
  subst score. repeat split; try assumption; lia.
Qed.

Lemma callback_publishes_decoded_word_witness :
  (32 <= length (word 14))%nat /\ 0 <= be_to_Z (firstn 32 (word 14)) <= MAX_UINT32.
Proof.
  destruct (callback_publishes_decoded_word refEnv 5 (word 14) [x01]
              (transact refEnv lab_closed (mkTx bob 200 5, RequestBatchDecryption 7))
              (transact refEnv
                 (transact refEnv lab_closed
                    (mkTx bob 200 5, RequestBatchDecryption 7))
                 (mkTx bob 220 0, OnBatchDecrypted 5 (word 14) [x01])))
    as [H1 [H2 _]].
  - vm_compute. reflexivity.
  - split; assumption.
Defined.

(** X25: encoding then decoding a [uint32] is the identity.  For a value
    in the [uint32] range, the decoder applied to its 32-byte big-endian
    word, followed by any trailing bytes, returns the value; input
    shorter than 32 bytes is rejected. *)
Theorem abi_uint32_round_trip (v : Z) (rest data : bytes) :
  0 <= v <= MAX_UINT32 ->
  (length data < 32)%nat ->
  abi_decode_uint32 (word v ++ rest) = Some v /\
  abi_decode_uint32 data = None.
Proof.
  intros Hv Hshort. unfold MAX_UINT32 in Hv. split.
  - unfold abi_decode_uint32.
    assert (Hlen : length (word v) = 32%nat) by apply be_bytes_length.
    rewrite length_app, Hlen.
    assert (H32 : (Z.of_nat (32 + length rest) <? 32) = false)
      by (apply Z.ltb_ge; lia).
    rewrite H32.
    assert (Hfirst : firstn 32 (word v ++ rest) = word v).
    { rewrite <- Hlen at 1. rewrite firstn_app, Nat.sub_diag, firstn_all.
      rewrite firstn_O. apply app_nil_r. }
    rewrite Hfirst. unfold word. rewrite be_to_Z_be_bytes.
    change (256 ^ Z.of_nat 32) with (2 ^ 256).
    rewrite Z.mod_small by lia.
    assert (Hle : (v <=? MAX_UINT32) = true)
      by (apply Z.leb_le; unfold MAX_UINT32; lia).
    rewrite Hle. reflexivity.
  - unfold abi_decode_uint32.
    assert (H : (Z.of_nat (length data) <? 32) = true)
      by (apply Z.ltb_lt; lia).
    rewrite H. reflexivity.
Qed.

Lemma abi_uint32_round_trip_witness :
  abi_decode_uint32 (word 14 ++ [x01; x02]) = Some 14 /\
  abi_decode_uint32 [x00; x0e] = None.
Proof.
  apply abi_uint32_round_trip.
  - vm_compute. split; discriminate.
  - cbn. lia.
Defined.

(** ** Consistency of the bookkeeping *)

Lemma well_formed_step E tx c s s' :
  dispatch E tx c s = Done tt s' -> well_formed s -> well_formed s'.
Proof.
  intros H Hwf.
  destruct s as [own pau cool lim ver prov last bat ctxs accs sizes vers evs].
  destruct Hwf as [W1 [W2 W3]]. cbn in W1, W2, W3.
  destruct c; dispatch_inv H; zbool;
    (split; [cbn; lia|]); (split; [cbn; lia|]); cbn;
    intro b0; destruct (W3 b0) as [Z0 [Z1 Z2]];
    unfold upd2, upd;
    (split; [|split]);
    try (intro v0; destruct (Z2 v0) as [V0 [V1 V2]]);
    repeat (case_if; cbn); zbool; subst; cbn in *;
    try solve [intuition (try congruence; try lia)].
Qed.

Lemma well_formed_run E trace :
  forall s, well_formed s -> well_formed (run E s trace).
Proof.
  induction trace as [|t rest IH]; intros s Hwf; [exact Hwf|].
  rewrite run_cons. apply IH. unfold transact.
  destruct (dispatch E (fst t) (snd t) s) as [[] s'|e s'] eqn:Hd;
    [|exact Hwf].
  eapply well_formed_step; eassumption.
Qed.

(** X26: the batch bookkeeping stays consistent.  In every state reached
    from construction, the model version and the capacity limit are at
    least 1; a batch that does not exist has the all-zero record (so a
    closed batch always exists); an existing batch is stamped with a
    version between 1 and the current one; and counts, accumulators and
    stored versions are non-zero only under the stamped version of an
    existing batch, [batchVersions] holding the version itself wherever
    the count is positive. *)
Theorem bookkeeping_is_consistent (E : Env) (tx0 : Tx) (s0 : State)
  (trace : list (Tx * Call)) :
  deploy tx0 = Done tt s0 ->
  well_formed (run E s0 trace) /\
  forall b,
    Batch.closed (batches (run E s0 trace) b) = true ->
    Batch.exists_ (batches (run E s0 trace) b) = true.
Proof.
  intro Hdep.
  assert (Hwf : well_formed (run E s0 trace)).
  { apply well_formed_run. rewrite deploy_done in Hdep.
    inversion Hdep; subst. unfold well_formed. cbn.
    repeat split; try lia; try reflexivity. }
  split; [exact Hwf|].
  intros b Hcl. destruct Hwf as [_ [_ W3]]. destruct (W3 b) as [Z0 _].
  destruct (Batch.exists_ (batches (run E s0 trace) b)) eqn:Hex;
    [reflexivity|].
  rewrite (Z0 eq_refl) in Hcl. discriminate.
Qed.

Lemma bookkeeping_is_consistent_witness :
  well_formed
    (run refEnv genesis
       [ (mkTx alice 100 0, OpenBatch);
         (mkTx alice 110 0, IncrementModelVersion) ]).
Proof.
  apply (proj1 (bookkeeping_is_consistent refEnv (mkTx alice 0 0) genesis
                  _ eq_refl)).
Defined.

Lemma accumulate_fold_initialized E :
  (forall a b, FHE_isInitialized E (FHE_add E a b) = true) ->
  forall l acc,
    l <> [] -> FHE_isInitialized E (fold_left (accumulate E) l acc) = true.
Proof.
  intros Hadd l. induction l as [|c l IH] using rev_ind; intros acc Hne.
  - contradiction.
  - rewrite fold_left_app. cbn. unfold accumulate at 1. apply Hadd.
Qed.

(** X27: an accumulator is initialised exactly when its count is
    positive.  Provided the library reports the zero handle as
    uninitialised and every result of [FHE.add] as initialised, in every
    state reached from construction the accumulator under a key holds an
    initialised handle if and only if at least one contribution was
    counted under that key. *)
Theorem initialized_iff_contributed (E : Env) (tx0 : Tx) (s0 : State)
  (trace : list (Tx * Call)) (b v : uint256) :
  FHE_isInitialized E 0 = false ->
  (forall x y, FHE_isInitialized E (FHE_add E x y) = true) ->
  deploy tx0 = Done tt s0 ->
  (FHE_isInitialized E (batchAccumulators (run E s0 trace) b v) = true <->
   0 < batchSizes (run E s0 trace) b v).
Proof.
  intros Hzero Hadd Hdep.
  rewrite deploy_done in Hdep. inversion Hdep; subst. clear Hdep.
  rewrite handle_run, count_run_accepted. cbn [batchAccumulators batchSizes].
  destruct (accepted E b v _ trace) as [|c l] eqn:Hacc.
  - cbn. rewrite Hzero. split; [discriminate|lia].
  - split.
    + intros _. cbn [length]. lia.
    + intros _. apply accumulate_fold_initialized; [exact Hadd|discriminate].
Qed.

Lemma initialized_iff_contributed_witness :
  FHE_isInitialized refEnv
    (batchAccumulators
       (run refEnv genesis [(mkTx alice 100 0, OpenBatch)]) B1 1) = true <->
  0 < batchSizes (run refEnv genesis [(mkTx alice 100 0, OpenBatch)]) B1 1.
Proof.
  apply (initialized_iff_contributed refEnv (mkTx alice 0 0) genesis).
  - reflexivity.
  - intros x y. change (negb ((ref_dec x + ref_dec y) mod 2 ^ 32 + 1 =? 0) = true).
    pose proof (Z.mod_pos_bound (ref_dec x + ref_dec y) (2 ^ 32) eq_refl).
    apply negb_true_iff, Z.eqb_neq. lia.
  - reflexivity.
Defined.

(** X28: [submitCrop] can be accepted only when the caller is a
    provider, the contract is not paused, the caller's cooldown has
    elapsed, and the batch exists, is open, is stamped with the current
    version and holds fewer contributions than the limit.  An accepted
    call stores the current version in [batchVersions], sets the
    caller's clock, leaves every batch record, every decryption context
    and the configuration as they are, and emits [CropSubmitted]. *)
Theorem submitCrop_guards_and_effects (E : Env) (tx : Tx) (b : uint256)
  (y r g : euint32) (s s' : State) :
  submitCrop E tx b y r g s = Done tt s' ->
  (providers s (msg_sender tx) = true /\
   paused s = false /\
   lastActionAt s (msg_sender tx) + cooldownInterval s
     <= Z.min MAX_UINT256 (block_timestamp tx) /\
   Batch.exists_ (batches s b) = true /\
   Batch.closed (batches s b) = false /\
   Batch.modelVersion (batches s b) = currentModelVersion s /\
   batchSizes s b (currentModelVersion s) < batchSizeLimit s) /\
  batches s' = batches s /\
  batchVersions s' b (currentModelVersion s) = currentModelVersion s /\
  lastActionAt s' (msg_sender tx) = block_timestamp tx /\
  decryptionContexts s' = decryptionContexts s /\
  same_config s s' /\
  events s' =
    events s ++
    [Event.CropSubmitted (msg_sender tx) b (currentModelVersion s)].
Proof.
  intro H.
  destruct s as [own pau cool lim ver prov last bat ctxs accs sizes vers evs].
  dispatch_inv H; zbool; unfold upd2, upd; rewrite !Z.eqb_refl;
    repeat split; auto; lia.
Qed.

Lemma submitCrop_guards_and_effects_witness :
  batchSizes lab_open 7 (currentModelVersion lab_open)
    < batchSizeLimit lab_open /\
  lastActionAt
    (transact refEnv lab_open
       (mkTx alice 200 0, SubmitCrop 7 (ref_enc 3) (ref_enc 4) (ref_enc 0)))
    alice = 200.
Proof.
  destruct (submitCrop_guards_and_effects refEnv (mkTx alice 200 0) 7
              (ref_enc 3) (ref_enc 4) (ref_enc 0) lab_open
              (transact refEnv lab_open
                 (mkTx alice 200 0,
                  SubmitCrop 7 (ref_enc 3) (ref_enc 4) (ref_enc 0))))
    as [[_ [_ [_ [_ [_ [_ Hsz]]]]]] [_ [_ [Hclock _]]]].
  - vm_compute. reflexivity.
  - split; [exact Hsz|exact Hclock].
Defined.

(** X29: only the three rate-limited functions touch the cooldown
    clocks.  A successful call of any other function ([closeBatch], the
    oracle callback, every owner operation) leaves each actor's last
    action time as it was, so closing a batch never delays the caller's
    next submission. *)
Theorem clocks_move_only_on_rate_limited_calls (E : Env) (tx : Tx)
  (c : Call) (s s' : State) :
  rate_limited c = false ->
  dispatch E tx c s = Done tt s' ->
  lastActionAt s' = lastActionAt s.
Proof.
  intros Hc H.
  destruct s as [own pau cool lim ver prov last bat ctxs accs sizes vers evs].
  destruct c; try discriminate Hc; dispatch_inv H; reflexivity.
Qed.

Lemma clocks_move_only_on_rate_limited_calls_witness :
  lastActionAt (transact refEnv lab_open (mkTx alice 150 0, CloseBatch 7))
  = lastActionAt lab_open.
Proof.
  apply (clocks_move_only_on_rate_limited_calls refEnv (mkTx alice 150 0)
           (CloseBatch 7)).
  - reflexivity.
  - vm_compute. reflexivity.
Defined.

(** ** The cooldown interval *)

Lemma not_TooFrequent_once_elapsed E tx c s s'' :
  lastActionAt s (msg_sender tx) + cooldownInterval s <= block_timestamp tx ->
  dispatch E tx c s <> Revert TooFrequent s''.
Proof.
  intros Hel H.
  destruct s as [own pau cool lim ver prov last bat ctxs accs sizes vers evs].
  cbn in Hel.
  destruct c; dispatch_inv H; zbool. all: lia.
Qed.

Lemma cooldown_only_through_elapsed_time E tx c n m s :
  match c with SetCooldownInterval _ => False | _ => True end ->
  (rate_limited c = true ->
   lastActionAt s (msg_sender tx) + n <= Z.min MAX_UINT256 (block_timestamp tx) /\
   lastActionAt s (msg_sender tx) + m <= Z.min MAX_UINT256 (block_timestamp tx)) ->
  agree_up_to_cooldown m
    (dispatch E tx c (set_cooldownInterval n s))
    (dispatch E tx c (set_cooldownInterval m s)).
Proof.
  intros Hc Hel.
  destruct s as [own pau cool lim ver prov last bat ctxs accs sizes vers evs].
  cbn in Hel.
  destruct c; try contradiction; cbn in Hel;
    try (destruct (Hel eq_refl) as [Hn Hm]); clear Hel;
    unfold agree_up_to_cooldown; unfold_contract; cbn;
    repeat (case_if; cbn); try reflexivity; try contradiction;
    try congruence; zbool; exfalso; lia.
Qed.

(** C10: [setCooldownInterval] has no lower bound.  For every value the
    owner's call succeeds and stores exactly that value, also when it is 0
    or below [MIN_INTERVAL]; the rate limiter then admits an actor as soon
    as the stored interval has elapsed.  No operation consults
    [MIN_INTERVAL]: once the stored interval has elapsed since the
    actor's last action no function answers [TooFrequent], however far
    below [MIN_INTERVAL] the interval is; before that each rate-limited
    function does (its earlier modifiers passed); and apart from that one
    comparison every function other than [setCooldownInterval] itself
    gives the same outcome whatever interval is stored. *)
Theorem setCooldownInterval_no_lower_bound (tx : Tx) (s : State)
  (newInterval : uint256) :
  msg_sender tx = owner s ->
  exists s',
    setCooldownInterval tx newInterval s = Done tt s' /\
    cooldownInterval s' = newInterval /\
    events s' =
      events s ++ [Event.CooldownUpdated (cooldownInterval s) newInterval] /\
    lastActionAt s' = lastActionAt s /\
    (forall tx',
        lastActionAt s (msg_sender tx') + newInterval <= MAX_UINT256 ->
        lastActionAt s (msg_sender tx') + newInterval <= block_timestamp tx' ->
        checkCooldown tx' (cooldownInterval s') s' = Done tt s') /\
    (newInterval < MIN_INTERVAL ->
     forall tx',
       lastActionAt s (msg_sender tx') + newInterval <= MAX_UINT256 ->
       block_timestamp tx' = lastActionAt s (msg_sender tx') + newInterval ->
       block_timestamp tx' < lastActionAt s (msg_sender tx') + MIN_INTERVAL /\
       checkCooldown tx' (cooldownInterval s') s' = Done tt s') /\
    (forall E tx' c s'',
        lastActionAt s (msg_sender tx') + newInterval <= block_timestamp tx' ->
        dispatch E tx' c s' <> Revert TooFrequent s'') /\
    (forall E tx' c,
        rate_limited c = true ->
        block_timestamp tx' < lastActionAt s (msg_sender tx') + newInterval ->
        (provider_gated c = true -> providers s (msg_sender tx') = true) ->
        paused s = false ->
        lastActionAt s (msg_sender tx') + newInterval <= MAX_UINT256 ->
        dispatch E tx' c s' = Revert TooFrequent s') /\
    (forall E tx' c m,
        match c with SetCooldownInterval _ => False | _ => True end ->
        (rate_limited c = true ->
         lastActionAt s (msg_sender tx') + newInterval
           <= Z.min MAX_UINT256 (block_timestamp tx') /\
         lastActionAt s (msg_sender tx') + m
           <= Z.min MAX_UINT256 (block_timestamp tx')) ->
        agree_up_to_cooldown m
          (dispatch E tx' c s')
          (dispatch E tx' c (set_cooldownInterval m s'))).
Proof.
  intros Hown.
  destruct s as [own pau cool lim ver prov last bat ctxs accs sizes vers evs].
  cbn in Hown. subst.
  eexists.
  unfold setCooldownInterval, onlyOwner, emit, bind, read, write, ret, revert.
  cbn. rewrite Z.eqb_refl.
  split; [reflexivity|]. cbn.
  split; [reflexivity|]. split; [reflexivity|]. split; [reflexivity|].
  split; [|split; [|split; [|split]]].
  - intros tx' H1 H2.
    refine (@checkCooldown_ok tx' newInterval _ _ _); assumption.
  - intros Hlt tx' H1 H2. split; [lia|].
    refine (@checkCooldown_ok tx' newInterval _ _ _); cbn; lia.
  - intros E tx' c s'' Hel.
    apply not_TooFrequent_once_elapsed. exact Hel.
  - intros E tx' c Hc Hsoon Hp Hpa Hov.
    refine (proj2 (rate_limited_too_soon E tx' c _ Hc _) _ _ _); assumption.
  - intros E tx' c m Hc Hel.
    exact (cooldown_only_through_elapsed_time E tx' c newInterval m
             (mkState (msg_sender tx) pau newInterval lim ver prov last bat
                ctxs accs sizes vers
                (evs ++ [Event.CooldownUpdated cool newInterval]))
             Hc Hel).
Qed.

Lemma setCooldownInterval_no_lower_bound_witness :
  let s := mkState 7 false 10 5 1 (upd (fun _ => false) 7 true)
             (upd (fun _ => 0) 7 100)
             (fun _ => Batch.zero) (fun _ => DecryptionContext.zero)
             (fun _ _ => 0) (fun _ _ => 0) (fun _ _ => 0) [] in
  exists s', setCooldownInterval (mkTx 7 101 0) 0 s = Done tt s' /\
             cooldownInterval s' = 0 /\
             dispatch refEnv (mkTx 7 104 0)
               (SubmitCrop 3 (ref_enc 1) (ref_enc 1) (ref_enc 1)) s'
             <> Revert TooFrequent s'.
Proof.
  intro s.
  destruct (@setCooldownInterval_no_lower_bound (mkTx 7 101 0) s 0)
    as [s' [H1 [H2 [_ [_ [_ [_ [H7 _]]]]]]]].
  - reflexivity.
  - exists s'. split; [exact H1|]. split; [exact H2|].
    apply H7. vm_compute. discriminate.
Defined.
